(** * cookie-analyzer: the most active cookie of a day

    A shallow embedding of [cookie-analyzer.js] (Node.js, an ES module) and
    the properties of its parsing, bucketing and ranking pipeline.

    Conventions.  A JavaScript string is a [string] holding its UTF-8 bytes;
    the separators the program splits on (newline, comma, [T], dot) are ASCII,
    so splitting bytes and splitting characters agree.  [undefined] is [None]
    in an [option].  An object literal [{}] is the list of its own properties
    in creation order, read through [JS.get], which falls back on
    [Object.prototype] the way a property read does.  Console output and
    abrupt completion (a thrown exception, [process.exit]) are explicit in the
    [Run] monad.  Counts stay far below 2^53 (an array holds fewer than 2^32
    elements), so they are natural numbers.  The limits of the engine (memory,
    the number of arguments a call such as [Math.max(...values)] accepts) are
    not part of the model. *)

From Stdlib Require Import String Ascii List Arith PeanoNat NArith Lia Bool Permutation Sorted.
Import ListNotations.
Open Scope string_scope.
Open Scope list_scope.
Open Scope nat_scope.

(* ================================================================== *)
(** * The JavaScript the program relies on *)

Module JS.

(** [s.split(sep)] for a one-character separator: never empty, the empty
    string gives one empty field. *)
Fixpoint split (sep : ascii) (s : string) : list string :=
  match s with
  | EmptyString => [EmptyString]
  | String c rest =>
      if Ascii.eqb c sep then EmptyString :: split sep rest
      else match split sep rest with
           | field :: fields => String c field :: fields
           | [] => [String c EmptyString]
           end
  end.

(** One-byte white space and line terminators: TAB, LF, VT, FF, CR, SP. *)
Definition isWhite1 (a : ascii) : bool :=
  let n := nat_of_ascii a in
  ((9 <=? n) && (n <=? 13)) || (n =? 32).

(** U+00A0, encoded C2 A0. *)
Definition isWhite2 (a b : ascii) : bool :=
  (nat_of_ascii a =? 194) && (nat_of_ascii b =? 160).

(** The three-byte ones: U+1680; U+2000..U+200A, U+2028, U+2029, U+202F;
    U+205F; U+3000; U+FEFF. *)
Definition isWhite3 (a b c : ascii) : bool :=
  let x := nat_of_ascii a in
  let y := nat_of_ascii b in
  let z := nat_of_ascii c in
  ((x =? 225) && (y =? 154) && (z =? 128))
  || ((x =? 226) && (y =? 128)
      && (((128 <=? z) && (z <=? 138)) || (z =? 168) || (z =? 169) || (z =? 175)))
  || ((x =? 226) && (y =? 129) && (z =? 159))
  || ((x =? 227) && (y =? 128) && (z =? 128))
  || ((x =? 239) && (y =? 187) && (z =? 191)).

Fixpoint trimStart (s : string) : string :=
  match s with
  | EmptyString => s
  | String a r1 =>
      if isWhite1 a then trimStart r1
      else match r1 with
           | EmptyString => s
           | String b r2 =>
               if isWhite2 a b then trimStart r2
               else match r2 with
                    | EmptyString => s
                    | String c r3 => if isWhite3 a b c then trimStart r3 else s
                    end
           end
  end.

Definition isBlank (s : string) : bool :=
  match trimStart s with EmptyString => true | _ => false end.

Fixpoint trimEnd (s : string) : string :=
  match s with
  | EmptyString => EmptyString
  | String a r => if isBlank s then EmptyString else String a (trimEnd r)
  end.

(** [s.trim()] *)
Definition trim (s : string) : string := trimEnd (trimStart s).

(** [s.toLowerCase()] restricted to ASCII: the letters A to Z are
    lowered and every other byte is kept, so this is [toLowerCase] on ASCII
    strings only; on a string with other cased letters (an accented capital)
    the result of the program has them lowered too.  The program uses the
    result only to compare it with ["csv"]; no character outside ASCII
    lowercases to [c], [s] or [v], so that comparison is decided the same
    way on every string. *)
Definition lowerChar (a : ascii) : ascii :=
  let n := nat_of_ascii a in
  if (65 <=? n) && (n <=? 90) then ascii_of_nat (n + 32) else a.

Fixpoint toLowerCase (s : string) : string :=
  match s with
  | EmptyString => EmptyString
  | String a r => String (lowerChar a) (toLowerCase r)
  end.

(** A value is falsy when it is [undefined] or the empty string. *)
Definition falsy (v : option string) : bool :=
  match v with
  | None => true
  | Some s => match s with EmptyString => true | _ => false end
  end.

(** ToPropertyKey of a string or [undefined]. *)
Definition toPropertyKey (v : option string) : string :=
  match v with Some s => s | None => "undefined" end.

(** ** Object.prototype *)

(** What a property read finds on [Object.prototype] when the object has
    no own property of that name: a built-in function (with its [name] and
    [length]) or, for the [__proto__] accessor, the prototype object. *)
Inductive inheritedValue : Type :=
| BuiltinFunction (name : string) (length : nat)
| PrototypeObject.

Definition objectPrototype : list (string * inheritedValue) :=
  [ ("constructor", BuiltinFunction "Object" 1);
    ("__defineGetter__", BuiltinFunction "__defineGetter__" 2);
    ("__defineSetter__", BuiltinFunction "__defineSetter__" 2);
    ("hasOwnProperty", BuiltinFunction "hasOwnProperty" 1);
    ("__lookupGetter__", BuiltinFunction "__lookupGetter__" 1);
    ("__lookupSetter__", BuiltinFunction "__lookupSetter__" 1);
    ("isPrototypeOf", BuiltinFunction "isPrototypeOf" 1);
    ("propertyIsEnumerable", BuiltinFunction "propertyIsEnumerable" 1);
    ("toString", BuiltinFunction "toString" 0);
    ("valueOf", BuiltinFunction "valueOf" 0);
    ("__proto__", PrototypeObject);
    ("toLocaleString", BuiltinFunction "toLocaleString" 0) ].

Fixpoint assoc {V : Type} (k : string) (l : list (string * V)) : option V :=
  match l with
  | [] => None
  | (k', v) :: rest => if String.eqb k' k then Some v else assoc k rest
  end.

Definition inherited (k : string) : option inheritedValue := assoc k objectPrototype.

(** The text a built-in function or the prototype object turns into when
    it is added to a number or used as a property key. *)
Inductive nativeText : Type :=
| SourceOf (fname : string)
| ObjectTag.

Definition render (t : nativeText) : string :=
  match t with
  | SourceOf fname => ("function " ++ fname ++ "() { [native code] }")%string
  | ObjectTag => "[object Object]"
  end.

Definition textOf (i : inheritedValue) : nativeText :=
  match i with
  | BuiltinFunction fname _ => SourceOf fname
  | PrototypeObject => ObjectTag
  end.

(** ** Objects created by [{}] *)

(** Own enumerable properties, in creation order. *)
Definition props (V : Type) : Type := list (string * V).

Definition getOwn {V : Type} (o : props V) (k : string) : option V := assoc k o.

(** Overwrite in place, or create at the end. *)
Fixpoint setOwn {V : Type} (o : props V) (k : string) (v : V) : props V :=
  match o with
  | [] => [(k, v)]
  | (k', v') :: rest =>
      if String.eqb k' k then (k', v) :: rest else (k', v') :: setOwn rest k v
  end.

(** The result of the read [o[k]]. *)
Inductive lookup (V : Type) : Type :=
| Own (v : V)
| Inherited (i : inheritedValue)
| Missing.
Arguments Own {V} v.
Arguments Inherited {V} i.
Arguments Missing {V}.

Definition get {V : Type} (o : props V) (k : string) : lookup V :=
  match getOwn o k with
  | Some v => Own v
  | None =>
      match inherited k with
      | Some i => Inherited i
      | None => Missing
      end
  end.

(** The write [o[k] = v] of a primitive [v] (a number, a string,
    [undefined]).  Under the key [__proto__] the write reaches the
    inherited setter, which ignores primitives; the other inherited
    properties are writable data properties, so the write creates an own
    property that shadows them. *)
Definition assign {V : Type} (o : props V) (k : string) (v : V) : props V :=
  if String.eqb k "__proto__" then o else setOwn o k v.

(** ** Own property order *)

Definition digit (c : ascii) : option N :=
  let n := nat_of_ascii c in
  if (48 <=? n) && (n <=? 57) then Some (N.of_nat (n - 48)) else None.

Fixpoint digits (s : string) (acc : N) : option N :=
  match s with
  | EmptyString => Some acc
  | String c r =>
      match digit c with
      | Some d => digits r (10 * acc + d)%N
      | None => None
      end
  end.

(** An array index is the canonical decimal form of an integer below
    2^32 - 1: ["0"], or digits that do not start with a zero. *)
Definition arrayIndex (s : string) : option N :=
  match s with
  | EmptyString => None
  | String c r =>
      if Ascii.eqb c "0"%char
      then match r with EmptyString => Some 0%N | _ => None end
      else match digits s 0 with
           | Some n => if (n <? 4294967295)%N then Some n else None
           | None => None
           end
  end.

Definition isArrayIndex (s : string) : bool :=
  match arrayIndex s with Some _ => true | None => false end.

Fixpoint insertIndex (e : N * string) (l : list (N * string)) : list (N * string) :=
  match l with
  | [] => [e]
  | e' :: rest =>
      if (fst e <=? fst e')%N then e :: l else e' :: insertIndex e rest
  end.

Fixpoint sortIndices (l : list (N * string)) : list (N * string) :=
  match l with
  | [] => []
  | e :: rest => insertIndex e (sortIndices rest)
  end.

Fixpoint indexKeys (names : list string) : list (N * string) :=
  match names with
  | [] => []
  | k :: rest =>
      match arrayIndex k with
      | Some n => (n, k) :: indexKeys rest
      | None => indexKeys rest
      end
  end.

(** The order of own property keys: array indices in ascending numeric
    order, then the other names in creation order. *)
Definition keyOrder (names : list string) : list string :=
  map snd (sortIndices (indexKeys names))
  ++ filter (fun k => negb (isArrayIndex k)) names.

(** [Object.keys(o)] *)
Definition keys {V : Type} (o : props V) : list string := keyOrder (map fst o).

End JS.

(* ================================================================== *)
(** * Console output and abrupt completion *)

Inductive exception : Type :=
| TypeError (message : string)
| ReferenceError (message : string).

(** What the process writes: a line on standard output ([console.log]), a
    line on standard error ([console.error]), or the report Node prints on
    standard error for an exception nobody caught. *)
Inductive event : Type :=
| Stdout (line : string)
| Stderr (line : string)
| Uncaught (e : exception).

Inductive completion (A : Type) : Type :=
| Return (a : A)
| Throw (e : exception)
| Exit (code : nat).
Arguments Return {A} a.
Arguments Throw {A} e.
Arguments Exit {A} code.

(** A computation: what it wrote, and how it completed. *)
Definition Run (A : Type) : Type := list event * completion A.

Definition ret {A : Type} (a : A) : Run A := ([], Return a).

Definition bind {A B : Type} (m : Run A) (f : A -> Run B) : Run B :=
  match m with
  | (written, Return a) => let (more, c) := f a in (written ++ more, c)
  | (written, Throw e) => (written, Throw e)
  | (written, Exit code) => (written, Exit code)
  end.

Notation "x <- m ;; k" := (bind m (fun x => k))
  (at level 61, m at next level, right associativity).
Notation "m ;;; k" := (bind m (fun _ => k))
  (at level 61, right associativity).

Definition lift {A : Type} (c : completion A) : Run A := ([], c).
Definition consoleLog (line : string) : Run unit := ([Stdout line], Return tt).
Definition consoleError (line : string) : Run unit := ([Stderr line], Return tt).
Definition throw {A : Type} (e : exception) : Run A := ([], Throw e).
Definition processExit {A : Type} (code : nat) : Run A := ([], Exit code).

(** What is seen of a run of the program from outside. *)
Record processResult : Type := {
  written : list event;
  exitStatus : nat
}.

(** A normal end gives status 0; an uncaught exception is reported on
    standard error and gives status 1. *)
Definition runProcess (r : Run unit) : processResult :=
  match r with
  | (w, Return _) => {| written := w; exitStatus := 0 |}
  | (w, Throw e) => {| written := w ++ [Uncaught e]; exitStatus := 1 |}
  | (w, Exit code) => {| written := w; exitStatus := code |}
  end.

Definition stdoutLines (w : list event) : list string :=
  flat_map (fun ev => match ev with Stdout l => [l] | _ => [] end) w.

Definition stderrLines (w : list event) : list string :=
  flat_map (fun ev => match ev with Stderr l => [l] | _ => [] end) w.

(** A string or [undefined] held by an argument map. *)
Definition argValue : Type := option string.

(** ToString of the result of reading a property of an argument map. *)
Definition stringOf (l : JS.lookup argValue) : string :=
  match l with
  | JS.Own v => JS.toPropertyKey v
  | JS.Inherited i => JS.render (JS.textOf i)
  | JS.Missing => "undefined"
  end.

(** [!x] for the result of reading a property of an argument map. *)
Definition isFalsy (l : JS.lookup argValue) : bool :=
  match l with
  | JS.Own v => JS.falsy v
  | JS.Inherited _ => false
  | JS.Missing => true
  end.

(* ================================================================== *)
(** * class Utilities *)

Module Utilities.

(** [chunks[index].push(x)] *)
Fixpoint pushAt {A : Type} (chunks : list (list A)) (index : nat) (x : A)
  : list (list A) :=
  match chunks, index with
  | [], _ => []
  | c :: rest, 0 => (c ++ [x]) :: rest
  | c :: rest, S index' => c :: pushAt rest index' x
  end.

(** The loop of [chunk], at position [i] with [rest] the elements from
    [array[i]] on.  [index] never exceeds the number of chunks made so far,
    so creating [chunks[index]] appends one chunk. *)
Fixpoint chunkLoop {A : Type} (rest : list A) (size i : nat)
  (chunks : list (list A)) : list (list A) :=
  match rest with
  | [] => chunks
  | x :: rest' =>
      let index := i / size in
      let chunks' :=
        match nth_error chunks index with
        | Some _ => chunks
        | None => chunks ++ [[]]
        end in
      chunkLoop rest' size (S i) (pushAt chunks' index x)
  end.

(** [Utilities.chunk(array, size)] for an array and a whole [size].  With
    [size] 0 the indices computed are [NaN] and [Infinity]: the array
    returned has no element. *)
Definition chunk {A : Type} (array : list A) (size : nat) : list (list A) :=
  match size with
  | 0 => []
  | _ => chunkLoop array size 0 []
  end.

End Utilities.

(* ================================================================== *)
(** * class ProcessLogs *)

(** A DateBucketMap: dates to arrays of cookies. *)
Definition logMap : Type := JS.props (list string).

Module ProcessLogs.

(** The base class parses nothing. *)
Definition parseFileContent (logs : string) : completion logMap := Return [].

(** A value of [freqMap]: a count, or the text left by adding 1 to what
    was inherited from [Object.prototype], followed by one ["1"] more for
    each further occurrence. *)
Inductive freqValue : Type :=
| Count (n : nat)
| Text (t : JS.nativeText) (ones : nat).

(** [freqMap[cookie] = (freqMap[cookie] ?? 0) + 1] *)
Definition increment (freqMap : JS.props freqValue) (cookie : string)
  : JS.props freqValue :=
  match JS.get freqMap cookie with
  | JS.Own (Count n) => JS.assign freqMap cookie (Count (n + 1))
  | JS.Own (Text t ones) => JS.assign freqMap cookie (Text t (ones + 1))
  | JS.Inherited i => JS.assign freqMap cookie (Text (JS.textOf i) 1)
  | JS.Missing => JS.assign freqMap cookie (Count (0 + 1))
  end.

Definition countCookies (logs : list string) : JS.props freqValue :=
  fold_left increment logs [].

Inductive number : Type :=
| Finite (n : nat)
| NaN
| NegInfinity.

(** ToNumber: none of the texts is a numeric literal. *)
Definition toNumber (v : freqValue) : number :=
  match v with
  | Count n => Finite n
  | Text _ _ => NaN
  end.

Definition max2 (a b : number) : number :=
  match a, b with
  | NaN, _ | _, NaN => NaN
  | NegInfinity, x | x, NegInfinity => x
  | Finite x, Finite y => Finite (Nat.max x y)
  end.

(** [Math.max(...values)] *)
Definition mathMax (values : list freqValue) : number :=
  fold_left (fun acc v => max2 acc (toNumber v)) values NegInfinity.

(** [Object.values(o)] *)
Definition values (o : JS.props freqValue) : list freqValue :=
  flat_map (fun k => match JS.getOwn o k with Some v => [v] | None => [] end)
           (JS.keys o).

(** [x === maxFreq] *)
Definition strictEquals (x : JS.lookup freqValue) (maxFreq : number) : bool :=
  match x, maxFreq with
  | JS.Own (Count n), Finite m => n =? m
  | _, _ => false
  end.

(** Lines 146 to 156: count, take the maximum, keep the keys that reach it. *)
Definition mostUsed (logs : list string) : list string :=
  let freqMap := countCookies logs in
  let maxFreq := mathMax (values freqMap) in
  filter (fun cookie => strictEquals (JS.get freqMap cookie) maxFreq)
         (JS.keys freqMap).

Definition noDataMessage : string :=
  "There are no cookies for this date. Please make sure the date is formatted YYYY-MM-DD".

(** [#analyzeLogs(logMap, date)]: [None] is the [null] it returns. *)
Definition analyzeLogs (m : logMap) (date : string) : Run (option (list string)) :=
  match JS.get m date with
  | JS.Missing => consoleLog noDataMessage ;;; ret None
  | JS.Own [] => consoleLog noDataMessage ;;; ret None
  | JS.Own logs => ret (Some (mostUsed logs))
  | JS.Inherited (JS.BuiltinFunction _ 0) => consoleLog noDataMessage ;;; ret None
  | JS.Inherited _ => throw (TypeError "logs is not iterable")
  end.

Fixpoint forEachLog (cookies : list string) : Run unit :=
  match cookies with
  | [] => ret tt
  | cookie :: rest => consoleLog cookie ;;; forEachLog rest
  end.

(** The template method; [parse] is the [parseFileContent] of the class
    of [this]. *)
Definition findMostUsedCookie (parse : string -> completion logMap)
  (args : JS.props argValue) (content : string) : Run unit :=
  parsedLogs <- lift (parse content) ;;
  analyzedLogs <- analyzeLogs parsedLogs (stringOf (JS.get args "timeStamp")) ;;
  match analyzedLogs with
  | Some cookies => forEachLog cookies
  | None => ret tt
  end.

End ProcessLogs.

(* ================================================================== *)
(** * class ProcessCsvLogs *)

Module ProcessCsvLogs.

Definition newline : ascii := "010"%char.

(** The body of the loop for one line.  [logMap[date]] is truthy when it
    is an own array and also when it is inherited; only an array has a
    [push]. *)
Definition processLine (line : string) (m : logMap) : completion logMap :=
  let fields := JS.split ","%char line in
  let cookie := nth_error fields 0 in
  let timestamp := nth_error fields 1 in
  if JS.falsy cookie || JS.falsy timestamp then Return m
  else
    let date := hd EmptyString (JS.split "T"%char (JS.toPropertyKey timestamp)) in
    match JS.get m date with
    | JS.Own logs => Return (JS.setOwn m date (logs ++ [JS.toPropertyKey cookie]))
    | JS.Missing => Return (JS.setOwn m date ([] ++ [JS.toPropertyKey cookie]))
    | JS.Inherited _ => Throw (TypeError "logMap[date].push is not a function")
    end.

(** [for (let i = ...; i < lines.length; i++)], with [steps] iterations
    left. *)
Fixpoint loop (lines : list string) (i steps : nat) (m : logMap)
  : completion logMap :=
  match steps with
  | 0 => Return m
  | S steps' =>
      match processLine (nth i lines EmptyString) m with
      | Return m' => loop lines (S i) steps' m'
      | Throw e => Throw e
      | Exit code => Exit code
      end
  end.

Definition linesOf (content : string) : list string :=
  JS.split newline (JS.trim content).

Definition parseLines (lines : list string) : completion logMap :=
  loop lines 1 (length lines - 1) [].

Definition parseFileContent (content : string) : completion logMap :=
  parseLines (linesOf content).

Definition findMostUsedCookie : JS.props argValue -> string -> Run unit :=
  ProcessLogs.findMostUsedCookie parseFileContent.

End ProcessCsvLogs.

(* ================================================================== *)
(** * class App *)

(** What [fs.readFileSync(path, 'utf-8')] does: the text, or the message
    of the error it throws. *)
Inductive fileRead : Type :=
| Content (text : string)
| Failure (message : string).

Module App.

Definition PARAMETERS : JS.props string :=
  [("-f", "fileName"); ("-d", "timeStamp")].

(** [const [key, value] = chunk] *)
Definition destructure (chunk : list string) : argValue * argValue :=
  (nth_error chunk 0, nth_error chunk 1).

(** The body of the loop of [#parseArguments].  A flag that is not an own
    key of [PARAMETERS] can still read a truthy inherited value, whose text
    then names the property written. *)
Definition setArgument (argMap : JS.props argValue) (chunk : list string)
  : JS.props argValue :=
  let (key, value) := destructure chunk in
  match JS.get PARAMETERS (JS.toPropertyKey key) with
  | JS.Missing => argMap
  | JS.Own name =>
      if JS.falsy (Some name) then argMap else JS.assign argMap name value
  | JS.Inherited i => JS.assign argMap (JS.render (JS.textOf i)) value
  end.

Definition parseArguments (args : list string) : JS.props argValue :=
  fold_left setArgument (Utilities.chunk args 2) [].

(** [#retrieveFileContent]: the handler names its exception [e] and then
    reads [error], which nothing binds, so evaluating line 86 throws and
    line 87 is not reached. *)
Definition retrieveFileContent (readFileSync : string -> fileRead)
  (argMap : JS.props argValue) : Run string :=
  let fileName := stringOf (JS.get argMap "fileName") in
  match readFileSync fileName with
  | Content text => ret text
  | Failure _ =>
      consoleError ("Error: Cannot read file '" ++ fileName ++ "'")%string ;;;
      throw (ReferenceError "error is not defined")
  end.

(** [argMap.fileName.split('.').pop().toLowerCase()] *)
Definition getFileExtension (argMap : JS.props argValue) : string :=
  JS.toLowerCase
    (last (JS.split "."%char (stringOf (JS.get argMap "fileName"))) EmptyString).

Definition usage : string := "Usage: node script.js -f <filename> -d <date>".

(** [main()], for the arguments after the script name and a file system. *)
Definition main (args : list string) (readFileSync : string -> fileRead)
  : Run unit :=
  let parsedArgs := parseArguments args in
  if isFalsy (JS.get parsedArgs "fileName") then
    consoleError "Error: Missing required parameter -f (filename)" ;;;
    consoleError usage ;;;
    processExit 1
  else if isFalsy (JS.get parsedArgs "timeStamp") then
    consoleError "Error: Missing required parameter -d (date)" ;;;
    consoleError usage ;;;
    processExit 1
  else
    content <- retrieveFileContent readFileSync parsedArgs ;;
    let fileExtension := getFileExtension parsedArgs in
    if String.eqb fileExtension "csv"
    then ProcessCsvLogs.findMostUsedCookie parsedArgs content
    else ProcessLogs.findMostUsedCookie ProcessLogs.parseFileContent parsedArgs content.

(** The whole process. *)
Definition run (args : list string) (readFileSync : string -> fileRead)
  : processResult :=
  runProcess (main args readFileSync).

End App.

(* ================================================================== *)
(** * The vocabulary of the specification *)

(** Number of occurrences of a cookie in a bucket. *)
Fixpoint count (c : string) (bucket : list string) : nat :=
  match bucket with
  | [] => 0
  | x :: rest => (if String.eqb x c then 1 else 0) + count c rest
  end.

(** The largest number of occurrences of any cookie of the bucket. *)
Definition maxCount (bucket : list string) : nat :=
  fold_right (fun c acc => Nat.max (count c bucket) acc) 0 bucket.

Definition maximal (bucket : list string) (c : string) : bool :=
  count c bucket =? maxCount bucket.

(** The distinct cookies of a bucket, each at its first occurrence. *)
Fixpoint firstOccurrences (bucket : list string) : list string :=
  match bucket with
  | [] => []
  | x :: rest => x :: filter (fun y => negb (String.eqb x y)) (firstOccurrences rest)
  end.

(** The tied winners, in first-occurrence order. *)
Definition tiedFirstOccurrence (bucket : list string) : list string :=
  filter (maximal bucket) (firstOccurrences bucket).

(** The name is not one that a read finds on [Object.prototype]. *)
Definition plain (k : string) : Prop := JS.inherited k = None.

(** A line yields two non-empty positional fields. *)
Definition twoFields (line cookie timestamp : string) : Prop :=
  exists more, JS.split ","%char line = cookie :: timestamp :: more
               /\ cookie <> EmptyString /\ timestamp <> EmptyString.

Definition malformed (line : string) : Prop :=
  forall cookie timestamp, ~ twoFields line cookie timestamp.

(** The part of a timestamp before the first [T]. *)
Definition dateOf (timestamp : string) : string :=
  hd EmptyString (JS.split "T"%char timestamp).

(** The record (cookie, date) of a data line, when it has one. *)
Definition recordOf (line : string) : option (string * string) :=
  match JS.split ","%char line with
  | cookie :: timestamp :: _ =>
      match cookie, timestamp with
      | EmptyString, _ | _, EmptyString => None
      | _, _ => Some (cookie, dateOf timestamp)
      end
  | _ => None
  end.

(** The records of the data lines, in input order. *)
Definition recordsOf (dataLines : list string) : list (string * string) :=
  flat_map (fun line => match recordOf line with Some r => [r] | None => [] end)
           dataLines.

(** The cookies recorded for a date, in input order. *)
Definition cookiesOn (date : string) (records : list (string * string)) : list string :=
  map fst (filter (fun r => String.eqb (snd r) date) records).

(** The arguments paired by position. *)
Fixpoint pairs (args : list string) : list (string * argValue) :=
  match args with
  | [] => []
  | [flag] => [(flag, None)]
  | flag :: value :: rest => (flag, Some value) :: pairs rest
  end.

(** The value of the last pair with the given flag, if there is one. *)
Definition lastOccurrence (flag : string) (ps : list (string * argValue))
  : option argValue :=
  fold_left (fun found p => if String.eqb (fst p) flag then Some (snd p) else found)
            ps None.

Definition found (o : option argValue) : JS.lookup argValue :=
  match o with
  | Some v => JS.Own v
  | None => JS.Missing
  end.

(** The loop of [parseFileContent] over the data lines themselves. *)
Fixpoint processAll (dataLines : list string) (m : logMap) : completion logMap :=
  match dataLines with
  | [] => Return m
  | line :: rest =>
      match ProcessCsvLogs.processLine line m with
      | Return m' => processAll rest m'
      | Throw e => Throw e
      | Exit code => Exit code
      end
  end.

(** The bucket of a date, empty when the date has none. *)
Definition bucketAt (m : logMap) (date : string) : list string :=
  match JS.getOwn m date with Some logs => logs | None => [] end.

(** Appending one record to its bucket. *)
Definition addRecord (m : logMap) (r : string * string) : logMap :=
  JS.setOwn m (snd r) (bucketAt m (snd r) ++ [fst r]).

(** The chunk a positional pair is held in. *)
Definition chunkOf (p : string * argValue) : list string :=
  match snd p with
  | Some value => [fst p; value]
  | None => [fst p]
  end.

(** The largest value of [g] over a list. *)
Definition listMax (g : string -> nat) (ks : list string) : nat :=
  fold_right (fun k acc => Nat.max (g k) acc) 0 ks.

(** An object whose keys are [ks], each holding [f] of itself. *)
Definition tabulate {V : Type} (f : string -> V) (ks : list string) : JS.props V :=
  map (fun c => (c, f c)) ks.

(** An inherited value whose [length] is 0. *)
Definition zeroLength (i : JS.inheritedValue) : bool :=
  match i with
  | JS.BuiltinFunction _ 0 => true
  | _ => false
  end.

(** Lines joined by newlines, as a file holds them. *)
Fixpoint unlines (lines : list string) : string :=
  match lines with
  | [] => EmptyString
  | [line] => line
  | line :: rest =>
      (line ++ String ProcessCsvLogs.newline EmptyString ++ unlines rest)%string
  end.

(** The characters of a string. *)
Definition contains (c : ascii) (s : string) : Prop := In c (list_ascii_of_string s).

(** The chunk left over at the end: none, or one that is not empty and
    not full. *)
Definition partialChunk {A : Type} (size : nat) (tail : list (list A)) : Prop :=
  tail = [] \/ exists c, tail = [c] /\ 0 < length c < size.

(** The value the program uses for a flag: that of the last pair with the
    flag, when it is a string that is not empty. *)
Definition valueOf (flag : string) (args : list string) : option string :=
  match lastOccurrence flag (pairs args) with
  | Some (Some (String a s)) => Some (String a s)
  | _ => None
  end.

(** The end of a run that lacks a parameter. *)
Definition usageFailure (message : string) : processResult :=
  {| written := [Stderr message; Stderr App.usage]; exitStatus := 1 |}.

Definition isStdout (ev : event) : bool :=
  match ev with
  | Stdout _ => true
  | _ => false
  end.

Definition notProto (c : string) : bool := negb (String.eqb c "__proto__").

(** A string of one-byte white space. *)
Fixpoint blank1 (s : string) : bool :=
  match s with
  | EmptyString => true
  | String a r => JS.isWhite1 a && blank1 r
  end.

(** What the process writes for a list of winners. *)
Definition cookieLines (winners : list string) : list event := map Stdout winners.

(** A string of ASCII characters.  On such a string [toLowerCase]
    changes the letters A to Z and nothing else, which is what
    [JS.toLowerCase] does. *)
Fixpoint asciiOnly (s : string) : bool :=
  match s with
  | EmptyString => true
  | String a r => (nat_of_ascii a <? 128) && asciiOnly r
  end.

(* ================================================================== *)
(** * Own properties *)

Section OwnProperties.

Context {V : Type}.
Implicit Types (o : JS.props V) (k : string) (v : V).

Lemma getOwn_setOwn_same o k v : JS.getOwn (JS.setOwn o k v) k = Some v.
Proof.
  unfold JS.getOwn.
  induction o as [|[k' v'] o IH]; simpl.
  - now rewrite String.eqb_refl.
  - destruct (String.eqb k' k) eqn:E; simpl; rewrite E; auto.
Qed.

Lemma getOwn_setOwn_other o k k' v :
  k <> k' -> JS.getOwn (JS.setOwn o k v) k' = JS.getOwn o k'.
Proof.
  unfold JS.getOwn. intros Hne.
  induction o as [|[k0 v0] o IH]; simpl.
  - destruct (String.eqb_spec k k'); [contradiction | reflexivity].
  - destruct (String.eqb_spec k0 k) as [->|Hk]; simpl.
    + destruct (String.eqb_spec k k'); [contradiction | reflexivity].
    + destruct (String.eqb k0 k'); auto.
Qed.

Lemma get_setOwn_same o k v : JS.get (JS.setOwn o k v) k = JS.Own v.
Proof. unfold JS.get. now rewrite getOwn_setOwn_same. Qed.

Lemma get_setOwn_other o k k' v :
  k <> k' -> JS.get (JS.setOwn o k v) k' = JS.get o k'.
Proof. intros H. unfold JS.get. now rewrite getOwn_setOwn_other. Qed.

Lemma get_assign_other o k k' v :
  k <> k' -> JS.get (JS.assign o k v) k' = JS.get o k'.
Proof.
  intros H. unfold JS.assign.
  destruct (String.eqb k "__proto__"); [reflexivity | now apply get_setOwn_other].
Qed.

Lemma get_assign_same o k v :
  k <> "__proto__" -> JS.get (JS.assign o k v) k = JS.Own v.
Proof.
  intros H. unfold JS.assign.
  destruct (String.eqb_spec k "__proto__"); [contradiction | apply get_setOwn_same].
Qed.

Lemma getOwn_tabulate (f : string -> V) ks k :
  JS.getOwn (tabulate f ks) k = if in_dec string_dec k ks then Some (f k) else None.
Proof.
  unfold JS.getOwn, tabulate.
  induction ks as [|c ks IH]; simpl; [reflexivity|].
  destruct (String.eqb_spec c k) as [->|Hne].
  - destruct (string_dec k k); [reflexivity | contradiction].
  - rewrite IH. destruct (string_dec c k); [contradiction|].
    destruct (in_dec string_dec k ks); reflexivity.
Qed.

Lemma setOwn_tabulate_new (f : string -> V) ks k v :
  ~ In k ks -> JS.setOwn (tabulate f ks) k v = tabulate f ks ++ [(k, v)].
Proof.
  unfold tabulate. induction ks as [|c ks IH]; simpl; intros Hn; [reflexivity|].
  destruct (String.eqb_spec c k) as [->|Hne]; [exfalso; auto|].
  rewrite IH by tauto. reflexivity.
Qed.

Lemma setOwn_tabulate_old (f : string -> V) ks k :
  NoDup ks -> In k ks ->
  forall v, JS.setOwn (tabulate f ks) k v
            = tabulate (fun c => if String.eqb c k then v else f c) ks.
Proof.
  unfold tabulate. induction 1 as [|c ks Hc Hnd IH]; simpl; intros Hin v; [contradiction|].
  destruct (String.eqb_spec c k) as [->|Hne].
  - f_equal. apply map_ext_in. intros a Ha.
    destruct (String.eqb_spec a k) as [->|]; [contradiction | reflexivity].
  - f_equal. apply IH. destruct Hin; [contradiction | assumption].
Qed.

Lemma keys_tabulate (f : string -> V) ks : JS.keys (tabulate f ks) = JS.keyOrder ks.
Proof.
  unfold JS.keys, tabulate. rewrite map_map. simpl. now rewrite map_id.
Qed.

End OwnProperties.

(* ================================================================== *)
(** * Counting and first occurrences *)

Lemma count_app c l l' : count c (l ++ l') = count c l + count c l'.
Proof. induction l as [|x l IH]; simpl; [reflexivity | rewrite IH; lia]. Qed.

Lemma count_absent c l : ~ In c l -> count c l = 0.
Proof.
  induction l as [|x l IH]; simpl; intros H; [reflexivity|].
  destruct (String.eqb_spec x c) as [->|]; [exfalso; auto|].
  rewrite IH by tauto. reflexivity.
Qed.

Lemma count_present c l : In c l -> 0 < count c l.
Proof.
  induction l as [|x l IH]; simpl; intros H; [contradiction|].
  destruct (String.eqb_spec x c); [lia|].
  destruct H; [contradiction | auto].
Qed.

Lemma firstOccurrences_In l x : In x (firstOccurrences l) <-> In x l.
Proof.
  induction l as [|a l IH]; simpl; [tauto|].
  rewrite filter_In, IH.
  destruct (String.eqb_spec a x) as [->|Hne]; simpl; intuition congruence.
Qed.

Lemma firstOccurrences_NoDup l : NoDup (firstOccurrences l).
Proof.
  induction l as [|a l IH]; simpl; constructor.
  - rewrite filter_In. intros [_ H]. now rewrite String.eqb_refl in H.
  - now apply NoDup_filter.
Qed.

Lemma firstOccurrences_snoc l x :
  firstOccurrences (l ++ [x])
  = if in_dec string_dec x l then firstOccurrences l else firstOccurrences l ++ [x].
Proof.
  induction l as [|a l IH]; simpl; [reflexivity|].
  rewrite IH.
  destruct (in_dec string_dec x l) as [Hin|Hout].
  - destruct (string_dec a x); reflexivity.
  - rewrite filter_app. simpl.
    destruct (string_dec a x) as [->|Hne].
    + rewrite String.eqb_refl. simpl. now rewrite app_nil_r.
    + destruct (String.eqb_spec a x); [contradiction | reflexivity].
Qed.

Lemma plain_not_proto c : plain c -> c <> "__proto__".
Proof. intros H ->. discriminate H. Qed.

(** On a bucket of plain names the loop of lines 146 to 148 counts. *)
Lemma countCookies_plain l :
  (forall c, In c l -> plain c) ->
  ProcessLogs.countCookies l
  = tabulate (fun c => ProcessLogs.Count (count c l)) (firstOccurrences l).
Proof.
  unfold ProcessLogs.countCookies.
  induction l as [|x l IH] using rev_ind; intros Hp; [reflexivity|].
  rewrite fold_left_app. simpl.
  rewrite IH by (intros c Hc; apply Hp, in_or_app; auto).
  assert (Hx : plain x) by (apply Hp, in_or_app; simpl; auto).
  unfold ProcessLogs.increment, JS.get.
  rewrite getOwn_tabulate, firstOccurrences_snoc.
  destruct (in_dec string_dec x (firstOccurrences l)) as [Hin|Hout];
    destruct (in_dec string_dec x l) as [Hin'|Hout'];
    try (rewrite firstOccurrences_In in *; contradiction).
  - unfold JS.assign.
    destruct (String.eqb_spec x "__proto__") as [E|_];
      [now apply plain_not_proto in Hx|].
    rewrite setOwn_tabulate_old by (auto using firstOccurrences_NoDup).
    apply map_ext. intros c. rewrite count_app. simpl.
    rewrite (String.eqb_sym c x).
    destruct (String.eqb_spec x c) as [->|]; f_equal; f_equal; lia.
  - rewrite Hx. unfold JS.assign.
    destruct (String.eqb_spec x "__proto__") as [E|_];
      [now apply plain_not_proto in Hx|].
    rewrite setOwn_tabulate_new by assumption.
    unfold tabulate. rewrite map_app. simpl. f_equal.
    + apply map_ext_in. intros c Hc. rewrite count_app. simpl.
      destruct (String.eqb_spec x c) as [->|]; [contradiction|].
      f_equal; f_equal; lia.
    + rewrite count_app, (count_absent x l) by assumption. simpl.
      now rewrite String.eqb_refl.
Qed.

(* ================================================================== *)
(** * The order of [Object.keys] *)

Lemma insertIndex_perm e l : Permutation (JS.insertIndex e l) (e :: l).
Proof.
  induction l as [|e' l IH]; simpl; [reflexivity|].
  destruct (fst e <=? fst e')%N; [reflexivity|].
  rewrite IH. apply perm_swap.
Qed.

Lemma sortIndices_perm l : Permutation (JS.sortIndices l) l.
Proof.
  induction l as [|e l IH]; simpl; [reflexivity|].
  rewrite insertIndex_perm. now constructor.
Qed.

Lemma keyOrder_perm ks : Permutation (JS.keyOrder ks) ks.
Proof.
  unfold JS.keyOrder.
  rewrite (Permutation_map snd (sortIndices_perm (JS.indexKeys ks))).
  induction ks as [|k ks IH]; simpl; [reflexivity|].
  unfold JS.isArrayIndex at 1.
  destruct (JS.arrayIndex k); simpl.
  - now constructor.
  - rewrite <- Permutation_middle. now constructor.
Qed.

Lemma keyOrder_In ks k : In k (JS.keyOrder ks) <-> In k ks.
Proof.
  split; apply Permutation_in; [| symmetry]; apply keyOrder_perm.
Qed.

(** Without array indices among the names, creation order is kept. *)
Lemma keyOrder_names ks :
  (forall k, In k ks -> JS.arrayIndex k = None) -> JS.keyOrder ks = ks.
Proof.
  intros H. unfold JS.keyOrder.
  assert (Hi : JS.indexKeys ks = []).
  { induction ks as [|k ks IH]; simpl; [reflexivity|].
    rewrite (H k) by (simpl; auto). apply IH. intros k' Hk'. apply H. simpl; auto. }
  assert (Hf : filter (fun k => negb (JS.isArrayIndex k)) ks = ks).
  { induction ks as [|k ks IH]; simpl; [reflexivity|].
    unfold JS.isArrayIndex at 1. rewrite (H k) by (simpl; auto). simpl.
    f_equal. apply IH; [intros k' Hk'; apply H; simpl; auto|].
    simpl in Hi. rewrite (H k) in Hi by (simpl; auto). exact Hi. }
  now rewrite Hi, Hf.
Qed.

Lemma insertIndex_sorted e l :
  StronglySorted (fun a b => (fst a <= fst b)%N) l ->
  StronglySorted (fun a b => (fst a <= fst b)%N) (JS.insertIndex e l).
Proof.
  induction 1 as [|e' l Hs IH Hall]; simpl.
  - constructor; constructor.
  - destruct (N.leb_spec (fst e) (fst e')).
    + constructor; [now constructor|].
      constructor; [assumption|].
      eapply Forall_impl; [|exact Hall]. simpl. intros; lia.
    + constructor; [assumption|].
      eapply Permutation_Forall; [symmetry; apply insertIndex_perm|].
      constructor; [lia | assumption].
Qed.

Lemma sortIndices_sorted l :
  StronglySorted (fun a b => (fst a <= fst b)%N) (JS.sortIndices l).
Proof.
  induction l; simpl; [constructor | now apply insertIndex_sorted].
Qed.

Lemma indexKeys_In ks n k :
  In (n, k) (JS.indexKeys ks) <-> In k ks /\ JS.arrayIndex k = Some n.
Proof.
  induction ks as [|a ks IH]; simpl; [tauto|].
  destruct (JS.arrayIndex a) eqn:E; simpl; rewrite IH; split.
  - intros [H|H]; [inversion H; subst; auto | tauto].
  - intros [[->|H] H']; [left; congruence | tauto].
  - tauto.
  - intros [[->|H] H']; [congruence | tauto].
Qed.

(** [Object.keys]: the array indices first, in ascending numeric order,
    then the other names in creation order. *)
Lemma keyOrder_shape ks :
  exists indices,
    JS.keyOrder ks
    = map snd indices ++ filter (fun k => negb (JS.isArrayIndex k)) ks
    /\ StronglySorted (fun a b => (fst a <= fst b)%N) indices
    /\ (forall n k, In (n, k) indices <-> In k ks /\ JS.arrayIndex k = Some n).
Proof.
  exists (JS.sortIndices (JS.indexKeys ks)). split; [reflexivity|].
  split; [apply sortIndices_sorted|].
  intros n k. rewrite <- indexKeys_In.
  split; apply Permutation_in; [| symmetry]; apply sortIndices_perm.
Qed.

(* ================================================================== *)
(** * The maximum *)

Lemma listMax_ge g ks k : In k ks -> g k <= listMax g ks.
Proof.
  induction ks as [|a ks IH]; simpl; intros H; [contradiction|].
  destruct H as [->|H]; [lia | specialize (IH H); lia].
Qed.

Lemma listMax_attained g ks :
  ks <> [] -> exists k, In k ks /\ g k = listMax g ks.
Proof.
  induction ks as [|a ks IH]; intros H; [contradiction|]. simpl.
  destruct ks as [|b ks].
  - exists a. simpl. split; [auto | lia].
  - destruct IH as [k [Hk Hg]]; [discriminate|].
    destruct (Nat.le_ge_cases (g a) (listMax g (b :: ks))) as [Hle|Hge].
    + exists k. split; [right; exact Hk|]. rewrite Hg.
      change (fold_right (fun k acc => Nat.max (g k) acc) 0 (b :: ks))
        with (listMax g (b :: ks)). lia.
    + exists a. split; [left; reflexivity|].
      change (fold_right (fun k acc => Nat.max (g k) acc) 0 (b :: ks))
        with (listMax g (b :: ks)). lia.
Qed.

Lemma listMax_same_elements g ks ks' :
  (forall k, In k ks <-> In k ks') -> listMax g ks = listMax g ks'.
Proof.
  intros H.
  destruct ks as [|a ks].
  - destruct ks' as [|b ks']; [reflexivity|].
    exfalso. apply (proj2 (H b)). simpl; auto.
  - destruct ks' as [|b ks'].
    + exfalso. apply (proj1 (H a)). simpl; auto.
    + destruct (listMax_attained g (a :: ks)) as [k [Hk Hg]]; [discriminate|].
      destruct (listMax_attained g (b :: ks')) as [k' [Hk' Hg']]; [discriminate|].
      apply Nat.le_antisymm.
      * rewrite <- Hg. apply listMax_ge. now apply H.
      * rewrite <- Hg'. apply listMax_ge. now apply H.
Qed.

Lemma maxCount_listMax l : maxCount l = listMax (fun c => count c l) l.
Proof. reflexivity. Qed.

Lemma count_le_maxCount l c : count c l <= maxCount l.
Proof.
  destruct (in_dec string_dec c l) as [H|H].
  - rewrite maxCount_listMax. now apply (listMax_ge (fun c => count c l)).
  - rewrite count_absent by assumption. lia.
Qed.

Lemma maxCount_positive l : l <> [] -> 0 < maxCount l.
Proof.
  destruct l as [|a l]; [contradiction|]. intros _.
  pose proof (count_le_maxCount (a :: l) a) as H.
  pose proof (count_present a (a :: l) (or_introl eq_refl)). lia.
Qed.

Lemma mathMax_from g ks a :
  fold_left (fun acc v => ProcessLogs.max2 acc (ProcessLogs.toNumber v))
            (map (fun k => ProcessLogs.Count (g k)) ks) (ProcessLogs.Finite a)
  = ProcessLogs.Finite (Nat.max a (listMax g ks)).
Proof.
  revert a. induction ks as [|k ks IH]; intros a; simpl.
  - now rewrite Nat.max_0_r.
  - rewrite IH. f_equal. unfold listMax. lia.
Qed.

Lemma mathMax_counts g ks :
  ks <> [] ->
  ProcessLogs.mathMax (map (fun k => ProcessLogs.Count (g k)) ks)
  = ProcessLogs.Finite (listMax g ks).
Proof.
  destruct ks as [|k ks]; [contradiction|]. intros _.
  unfold ProcessLogs.mathMax. simpl. now rewrite mathMax_from.
Qed.

Lemma values_tabulate g ks :
  ProcessLogs.values (tabulate (fun c => ProcessLogs.Count (g c)) ks)
  = map (fun k => ProcessLogs.Count (g k)) (JS.keyOrder ks).
Proof.
  unfold ProcessLogs.values. rewrite keys_tabulate.
  assert (H : forall k, In k (JS.keyOrder ks) -> In k ks)
    by (intros k; apply keyOrder_In).
  induction (JS.keyOrder ks) as [|k l IH]; simpl; [reflexivity|].
  rewrite getOwn_tabulate.
  destruct (in_dec string_dec k ks) as [_|Hn].
  - simpl. f_equal. apply IH. intros; apply H; simpl; auto.
  - exfalso. apply Hn, H. simpl; auto.
Qed.

(** On a non-empty bucket of plain names, lines 146 to 156 keep the
    cookies with the maximal count, in the order of [Object.keys]. *)
Lemma mostUsed_plain l :
  l <> [] ->
  (forall c, In c l -> plain c) ->
  ProcessLogs.mostUsed l = filter (maximal l) (JS.keyOrder (firstOccurrences l)).
Proof.
  intros Hne Hp. unfold ProcessLogs.mostUsed.
  rewrite countCookies_plain by assumption.
  rewrite keys_tabulate, values_tabulate.
  assert (Hk : JS.keyOrder (firstOccurrences l) <> []).
  { destruct l as [|a l]; [contradiction|]. intros E.
    assert (Hin : In a (JS.keyOrder (firstOccurrences (a :: l))))
      by (apply keyOrder_In, firstOccurrences_In; simpl; auto).
    rewrite E in Hin. contradiction. }
  rewrite mathMax_counts by assumption.
  rewrite (listMax_same_elements _ _ l)
    by (intros k; rewrite keyOrder_In; apply firstOccurrences_In).
  apply filter_ext_in. intros k Hin.
  apply (proj1 (keyOrder_In _ _)) in Hin.
  unfold JS.get. rewrite getOwn_tabulate.
  destruct (in_dec string_dec k (firstOccurrences l)); [reflexivity | contradiction].
Qed.

Lemma mostUsed_exact l :
  l <> [] ->
  (forall c, In c l -> plain c) ->
  NoDup (ProcessLogs.mostUsed l)
  /\ forall c, In c (ProcessLogs.mostUsed l) <-> In c l /\ count c l = maxCount l.
Proof.
  intros Hne Hp. rewrite mostUsed_plain by assumption. split.
  - apply NoDup_filter.
    eapply Permutation_NoDup; [symmetry; apply keyOrder_perm|].
    apply firstOccurrences_NoDup.
  - intros c. rewrite filter_In, keyOrder_In, firstOccurrences_In.
    unfold maximal. now rewrite Nat.eqb_eq.
Qed.

(** A bucket that is present and not empty is ranked. *)
Lemma analyzeLogs_bucket m date bucket :
  JS.getOwn m date = Some bucket -> bucket <> [] ->
  ProcessLogs.analyzeLogs m date = ret (Some (ProcessLogs.mostUsed bucket)).
Proof.
  intros H Hne. unfold ProcessLogs.analyzeLogs, JS.get. rewrite H.
  destruct bucket; [contradiction | reflexivity].
Qed.

(* ================================================================== *)
(** * The loop over the lines *)

Lemma skipn_nth (l : list string) i d :
  i < length l -> skipn i l = nth i l d :: skipn (S i) l.
Proof.
  revert i. induction l as [|a l IH]; intros i H; simpl in H; [lia|].
  destruct i as [|i]; [reflexivity|].
  simpl. apply IH. lia.
Qed.

Lemma loop_processAll steps : forall i lines m,
  i + steps <= length lines ->
  ProcessCsvLogs.loop lines i steps m = processAll (firstn steps (skipn i lines)) m.
Proof.
  induction steps as [|steps IH]; intros i lines m H; [reflexivity|].
  rewrite (skipn_nth lines i EmptyString) by lia. simpl.
  destruct (ProcessCsvLogs.processLine (nth i lines EmptyString) m); try reflexivity.
  apply IH. lia.
Qed.

(** The loop starts at index 1: only the lines after the first are read. *)
Lemma parseLines_tail lines :
  ProcessCsvLogs.parseLines lines = processAll (tl lines) [].
Proof.
  destruct lines as [|h rest]; [reflexivity|].
  unfold ProcessCsvLogs.parseLines.
  replace (length (h :: rest) - 1) with (length rest) by (simpl; lia).
  rewrite loop_processAll by (simpl; lia).
  simpl. now rewrite firstn_all.
Qed.

Lemma processLine_record line m :
  ProcessCsvLogs.processLine line m
  = match recordOf line with
    | None => Return m
    | Some r =>
        match JS.get m (snd r) with
        | JS.Own logs => Return (JS.setOwn m (snd r) (logs ++ [fst r]))
        | JS.Missing => Return (JS.setOwn m (snd r) [fst r])
        | JS.Inherited _ => Throw (TypeError "logMap[date].push is not a function")
        end
    end.
Proof.
  unfold ProcessCsvLogs.processLine, recordOf.
  destruct (JS.split ","%char line) as [|c [|t more]]; simpl.
  - reflexivity.
  - destruct c; reflexivity.
  - destruct c; [reflexivity|]. destruct t; reflexivity.
Qed.

Lemma recordOf_twoFields line cookie date :
  recordOf line = Some (cookie, date)
  <-> exists timestamp, twoFields line cookie timestamp /\ date = dateOf timestamp.
Proof.
  unfold recordOf, twoFields. split.
  - destruct (JS.split ","%char line) as [|c [|t more]]; try discriminate.
    destruct c; [discriminate|]. destruct t; [discriminate|].
    intros H. inversion H; subst. exists (String a0 t). split; [|reflexivity].
    exists more. repeat split; discriminate.
  - intros [t [[more [-> [Hc Ht]]] ->]].
    destruct cookie; [contradiction|]. destruct t; [contradiction|]. reflexivity.
Qed.

Lemma malformed_recordOf line : malformed line <-> recordOf line = None.
Proof.
  split.
  - intros H. destruct (recordOf line) as [[c d]|] eqn:E; [|reflexivity].
    apply recordOf_twoFields in E. destruct E as [t [Ht _]].
    exfalso. exact (H c t Ht).
  - intros E c t Ht.
    assert (recordOf line = Some (c, dateOf t))
      by (apply recordOf_twoFields; eauto).
    congruence.
Qed.

Lemma processLine_malformed line m :
  malformed line -> ProcessCsvLogs.processLine line m = Return m.
Proof.
  intros H. rewrite processLine_record.
  apply malformed_recordOf in H. now rewrite H.
Qed.

Lemma processAll_without before bad after :
  malformed bad ->
  forall m, processAll (before ++ bad :: after) m = processAll (before ++ after) m.
Proof.
  intros H. induction before as [|l before IH]; intros m; simpl.
  - now rewrite processLine_malformed.
  - destruct (ProcessCsvLogs.processLine l m); auto.
Qed.

(* ================================================================== *)
(** * The buckets *)

Lemma processAll_plain lines : forall m,
  (forall r, In r (recordsOf lines) -> plain (snd r)) ->
  processAll lines m = Return (fold_left addRecord (recordsOf lines) m).
Proof.
  induction lines as [|line rest IH]; intros m Hp; [reflexivity|].
  simpl. rewrite processLine_record.
  unfold recordsOf in *. simpl in Hp.
  destruct (recordOf line) as [r|]; simpl.
  - assert (Hr : plain (snd r)) by (apply Hp; simpl; auto).
    assert (E : JS.get m (snd r)
                = match JS.getOwn m (snd r) with
                  | Some logs => JS.Own logs
                  | None => JS.Missing
                  end)
      by (unfold JS.get; destruct (JS.getOwn m (snd r)); [reflexivity | now rewrite Hr]).
    rewrite E. unfold addRecord at 2, bucketAt.
    destruct (JS.getOwn m (snd r)); apply IH; intros; apply Hp; simpl; auto.
  - apply IH. exact Hp.
Qed.

Lemma getOwn_addRecords recs : forall m d,
  JS.getOwn (fold_left addRecord recs m) d
  = match cookiesOn d recs with
    | [] => JS.getOwn m d
    | cs => Some (bucketAt m d ++ cs)
    end.
Proof.
  induction recs as [|[c d'] recs IH]; intros m d; [reflexivity|].
  simpl fold_left. rewrite IH. unfold cookiesOn, addRecord, bucketAt. simpl.
  destruct (String.eqb_spec d' d) as [->|Hne]; simpl.
  - rewrite getOwn_setOwn_same.
    destruct (map fst (filter (fun r => String.eqb (snd r) d) recs));
      [reflexivity | now rewrite <- app_assoc].
  - now rewrite getOwn_setOwn_other by assumption.
Qed.

Lemma cookiesOn_nil d recs : cookiesOn d recs = [] <-> ~ In d (map snd recs).
Proof.
  unfold cookiesOn. induction recs as [|[c d'] recs IH]; simpl; [tauto|].
  destruct (String.eqb_spec d' d) as [->|Hne]; simpl.
  - split; [discriminate | intros H; exfalso; auto].
  - rewrite IH. tauto.
Qed.

Lemma keys_setOwn (m : logMap) d v :
  map fst (JS.setOwn m d v)
  = match JS.getOwn m d with
    | Some _ => map fst m
    | None => map fst m ++ [d]
    end.
Proof.
  unfold JS.getOwn. induction m as [|[k w] m IH]; simpl; [reflexivity|].
  destruct (String.eqb k d); simpl; [reflexivity|].
  rewrite IH. destruct (JS.assoc d m); reflexivity.
Qed.

(** A bucket is created when its date is first met. *)
Lemma keys_addRecords recs :
  map fst (fold_left addRecord recs []) = firstOccurrences (map snd recs).
Proof.
  induction recs as [|[c d] recs IH] using rev_ind; [reflexivity|].
  rewrite fold_left_app, map_app. simpl.
  rewrite firstOccurrences_snoc. unfold addRecord at 1. simpl.
  rewrite keys_setOwn, getOwn_addRecords, IH.
  destruct (in_dec string_dec d (map snd recs)) as [Hin|Hout].
  - destruct (cookiesOn d recs) eqn:E; [|reflexivity].
    apply cookiesOn_nil in E. contradiction.
  - apply cookiesOn_nil in Hout. now rewrite Hout.
Qed.

(** What [parseFileContent] builds when no date of the log is a name
    found on [Object.prototype]: for each date the cookies of its
    surviving lines, in input order; the dates in the order first met. *)
Lemma parseFileContent_buckets content :
  let records := recordsOf (tl (ProcessCsvLogs.linesOf content)) in
  (forall r, In r records -> plain (snd r)) ->
  exists m,
    ProcessCsvLogs.parseFileContent content = Return m
    /\ (forall date, JS.getOwn m date
                     = match cookiesOn date records with
                       | [] => None
                       | cs => Some cs
                       end)
    /\ map fst m = firstOccurrences (map snd records).
Proof.
  intros records Hp.
  exists (fold_left addRecord records []). split; [|split].
  - unfold ProcessCsvLogs.parseFileContent. rewrite parseLines_tail.
    now apply processAll_plain.
  - intros date. rewrite getOwn_addRecords. reflexivity.
  - apply keys_addRecords.
Qed.

(* ================================================================== *)
(** * Chunks and arguments *)

Lemma div2_even n : (2 * n) / 2 = n.
Proof. symmetry. apply (Nat.div_unique _ _ _ 0); lia. Qed.

Lemma div2_odd n : S (2 * n) / 2 = n.
Proof. symmetry. apply (Nat.div_unique _ _ _ 1); lia. Qed.

Lemma pushAt_last {A : Type} (chunks : list (list A)) c x :
  Utilities.pushAt (chunks ++ [c]) (length chunks) x = chunks ++ [c ++ [x]].
Proof. induction chunks as [|d chunks IH]; simpl; [reflexivity | now rewrite IH]. Qed.

Lemma nth_error_last {A : Type} (l : list A) x :
  nth_error (l ++ [x]) (length l) = Some x.
Proof. induction l; simpl; auto. Qed.

Lemma nth_error_length {A : Type} (l : list A) : nth_error l (length l) = None.
Proof. induction l; simpl; auto. Qed.

(** Chunks of size 2 are the positional pairs. *)
Lemma chunkLoop_pairs n : forall rest chunks,
  length rest <= n ->
  Utilities.chunkLoop rest 2 (2 * length chunks) chunks
  = chunks ++ map chunkOf (pairs rest).
Proof.
  induction n as [n IH] using lt_wf_ind. intros rest chunks Hn.
  destruct rest as [|k [|v rest]].
  - simpl. now rewrite app_nil_r.
  - cbn [Utilities.chunkLoop]. rewrite div2_even, nth_error_length, pushAt_last.
    reflexivity.
  - cbn [Utilities.chunkLoop]. rewrite div2_even, nth_error_length, pushAt_last.
    rewrite div2_odd, nth_error_last, pushAt_last.
    simpl in Hn.
    replace (S (S (2 * length chunks)))
      with (2 * length (chunks ++ [[] ++ [k] ++ [v]]))
      by (rewrite length_app; simpl; lia).
    rewrite (IH (length rest)) by lia.
    rewrite <- app_assoc. reflexivity.
Qed.

Lemma chunk_pairs (args : list string) :
  Utilities.chunk args 2 = map chunkOf (pairs args).
Proof.
  unfold Utilities.chunk.
  exact (chunkLoop_pairs (length args) args [] (Nat.le_refl _)).
Qed.

Ltac inherited_cases H :=
  unfold JS.inherited, JS.objectPrototype in H; simpl in H;
  repeat match type of H with
         | (if ?b then _ else _) = _ => destruct b
         end;
  try discriminate H; inversion H; subst; clear H.

Lemma inherited_text k i :
  JS.inherited k = Some i ->
  JS.render (JS.textOf i) <> "fileName" /\ JS.render (JS.textOf i) <> "timeStamp".
Proof. intros H. inherited_cases H; split; discriminate. Qed.

Section Reads.

(** The flag and the name [PARAMETERS] gives it. *)
Variables flag name : string.
Hypothesis known :
  (flag = "-f" /\ name = "fileName") \/ (flag = "-d" /\ name = "timeStamp").

Lemma setArgument_read argMap p :
  JS.get (App.setArgument argMap (chunkOf p)) name
  = if String.eqb (fst p) flag then JS.Own (snd p) else JS.get argMap name.
Proof.
  destruct p as [k v].
  assert (E : App.destructure (chunkOf (k, v)) = (Some k, v))
    by (destruct v; reflexivity).
  assert (G : JS.get App.PARAMETERS k
              = if String.eqb "-f" k then JS.Own "fileName"
                else if String.eqb "-d" k then JS.Own "timeStamp"
                else match JS.inherited k with
                     | Some i => JS.Inherited i
                     | None => JS.Missing
                     end).
  { unfold JS.get, App.PARAMETERS, JS.getOwn. cbn [JS.assoc].
    destruct (String.eqb "-f" k); [reflexivity|].
    destruct (String.eqb "-d" k); reflexivity. }
  unfold App.setArgument. rewrite E. cbn [JS.toPropertyKey fst snd]. rewrite G.
  destruct (String.eqb_spec "-f" k) as [<-|Hf].
  - cbn [JS.falsy]. destruct known as [[-> ->]|[-> ->]].
    + rewrite String.eqb_refl. apply get_assign_same. discriminate.
    + simpl String.eqb. apply get_assign_other. discriminate.
  - destruct (String.eqb_spec "-d" k) as [<-|Hd].
    + cbn [JS.falsy]. destruct known as [[-> ->]|[-> ->]].
      * simpl String.eqb. apply get_assign_other. discriminate.
      * rewrite String.eqb_refl. apply get_assign_same. discriminate.
    + assert (Hk : String.eqb k flag = false).
      { apply String.eqb_neq. destruct known as [[-> _]|[-> _]]; congruence. }
      rewrite Hk.
      destruct (JS.inherited k) as [i|] eqn:Ei; [|reflexivity].
      apply get_assign_other.
      destruct (inherited_text k i Ei) as [H1 H2].
      destruct known as [[_ ->]|[_ ->]]; assumption.
Qed.

Lemma fold_setArgument_read ps : forall argMap acc,
  JS.get argMap name = found acc ->
  JS.get (fold_left App.setArgument (map chunkOf ps) argMap) name
  = found (fold_left
             (fun o p => if String.eqb (fst p) flag then Some (snd p) else o) ps acc).
Proof.
  induction ps as [|p ps IH]; intros argMap acc H; [exact H|].
  simpl. apply IH. rewrite setArgument_read.
  destruct (String.eqb (fst p) flag); [reflexivity | exact H].
Qed.

Lemma parseArguments_read args :
  JS.get (App.parseArguments args) name = found (lastOccurrence flag (pairs args)).
Proof.
  unfold App.parseArguments, lastOccurrence. rewrite chunk_pairs.
  apply fold_setArgument_read.
  destruct known as [[_ ->]|[_ ->]]; reflexivity.
Qed.

End Reads.

Lemma pairs_app_even pre rest :
  Nat.even (length pre) = true -> pairs (pre ++ rest) = pairs pre ++ pairs rest.
Proof.
  remember (length pre) as n eqn:Hn. revert pre Hn.
  induction n as [n IH] using lt_wf_ind. intros pre Hn He.
  destruct pre as [|a [|b pre]].
  - reflexivity.
  - subst n. discriminate He.
  - subst n. simpl in He.
    change (pairs ((a :: b :: pre) ++ rest)) with ((a, Some b) :: pairs (pre ++ rest)).
    rewrite (IH (length pre)); simpl; auto.
Qed.

Lemma lastOccurrence_skip flag ps k v ps' :
  k <> flag ->
  lastOccurrence flag (ps ++ (k, v) :: ps') = lastOccurrence flag (ps ++ ps').
Proof.
  intros H. unfold lastOccurrence. rewrite !fold_left_app. simpl.
  destruct (String.eqb_spec k flag); [contradiction | reflexivity].
Qed.

(** [main] reads its parsed arguments at [fileName] and [timeStamp] only. *)
Lemma main_reads args args' readFileSync :
  JS.get (App.parseArguments args) "fileName"
  = JS.get (App.parseArguments args') "fileName" ->
  JS.get (App.parseArguments args) "timeStamp"
  = JS.get (App.parseArguments args') "timeStamp" ->
  App.main args readFileSync = App.main args' readFileSync.
Proof.
  intros Hf Hd.
  unfold App.main, App.retrieveFileContent, App.getFileExtension,
    ProcessCsvLogs.findMostUsedCookie, ProcessLogs.findMostUsedCookie.
  rewrite Hf, Hd. reflexivity.
Qed.

(* ================================================================== *)
(** * Names found on Object.prototype *)

Lemma getOwn_assign_other {V : Type} (o : JS.props V) k k' v :
  k <> k' -> JS.getOwn (JS.assign o k v) k' = JS.getOwn o k'.
Proof.
  intros H. unfold JS.assign.
  destruct (String.eqb k "__proto__"); [reflexivity | now apply getOwn_setOwn_other].
Qed.

Lemma getOwn_assign_same {V : Type} (o : JS.props V) k v :
  k <> "__proto__" -> JS.getOwn (JS.assign o k v) k = Some v.
Proof.
  intros H. unfold JS.assign.
  destruct (String.eqb_spec k "__proto__"); [contradiction | apply getOwn_setOwn_same].
Qed.

Lemma getOwn_keys {V : Type} (o : JS.props V) k v :
  JS.getOwn o k = Some v -> In k (map fst o).
Proof.
  unfold JS.getOwn. induction o as [|[k' v'] o IH]; simpl; [discriminate|].
  destruct (String.eqb_spec k' k); auto.
Qed.

Lemma function_not_proto c fname len :
  JS.inherited c = Some (JS.BuiltinFunction fname len) -> c <> "__proto__".
Proof. intros H ->. discriminate H. Qed.

Section Tainted.

(** A cookie named like a function of [Object.prototype]. *)
Variables (c fname : string) (len : nat).
Hypothesis inherits : JS.inherited c = Some (JS.BuiltinFunction fname len).

Lemma increment_other o x :
  x <> c -> JS.getOwn (ProcessLogs.increment o x) c = JS.getOwn o c.
Proof.
  intros H. unfold ProcessLogs.increment.
  destruct (JS.get o x) as [[n|t k]|i|]; now apply getOwn_assign_other.
Qed.

Lemma increment_keeps_text o x :
  (exists k, JS.getOwn o c = Some (ProcessLogs.Text (JS.SourceOf fname) k)) ->
  exists k, JS.getOwn (ProcessLogs.increment o x) c
            = Some (ProcessLogs.Text (JS.SourceOf fname) k).
Proof.
  intros [k Hk]. destruct (string_dec x c) as [->|Hne].
  - unfold ProcessLogs.increment, JS.get. rewrite Hk.
    exists (k + 1). apply getOwn_assign_same.
    exact (function_not_proto _ _ _ inherits).
  - exists k. now rewrite increment_other.
Qed.

Lemma countCookies_keeps_text l : forall o,
  (exists k, JS.getOwn o c = Some (ProcessLogs.Text (JS.SourceOf fname) k)) ->
  exists k, JS.getOwn (fold_left ProcessLogs.increment l o) c
            = Some (ProcessLogs.Text (JS.SourceOf fname) k).
Proof.
  induction l as [|x l IH]; intros o H; [exact H|].
  simpl. apply IH. now apply increment_keeps_text.
Qed.

(** The first occurrence reads the inherited function and leaves a text. *)
Lemma countCookies_text l : forall o,
  JS.getOwn o c = None -> In c l ->
  exists k, JS.getOwn (fold_left ProcessLogs.increment l o) c
            = Some (ProcessLogs.Text (JS.SourceOf fname) k).
Proof.
  induction l as [|x l IH]; intros o Ho Hin; [contradiction|].
  simpl. destruct (string_dec x c) as [->|Hne].
  - apply countCookies_keeps_text. exists 1.
    unfold ProcessLogs.increment, JS.get. rewrite Ho, inherits.
    apply getOwn_assign_same. exact (function_not_proto _ _ _ inherits).
  - apply IH.
    + now rewrite increment_other.
    + destruct Hin; [contradiction | assumption].
Qed.

End Tainted.

Lemma mathMax_from_NaN vs : forall acc,
  acc = ProcessLogs.NaN \/ (exists t k, In (ProcessLogs.Text t k) vs) ->
  fold_left (fun acc v => ProcessLogs.max2 acc (ProcessLogs.toNumber v)) vs acc
  = ProcessLogs.NaN.
Proof.
  induction vs as [|v vs IH]; intros acc H; simpl.
  - destruct H as [H|[t [k []]]]. exact H.
  - apply IH. destruct H as [->|[t [k [->|H]]]].
    + left. reflexivity.
    + left. destruct acc; reflexivity.
    + right. eauto.
Qed.

Lemma values_In o c v : JS.getOwn o c = Some v -> In v (ProcessLogs.values o).
Proof.
  intros H. unfold ProcessLogs.values. apply in_flat_map.
  exists c. split.
  - unfold JS.keys. apply keyOrder_In. eapply getOwn_keys; eauto.
  - rewrite H. simpl; auto.
Qed.

(** One cookie named like a function of [Object.prototype] is enough for
    the ranker to keep no cookie at all. *)
Lemma mostUsed_inherited bucket c fname len :
  In c bucket -> JS.inherited c = Some (JS.BuiltinFunction fname len) ->
  ProcessLogs.mostUsed bucket = [].
Proof.
  intros Hin Hc. unfold ProcessLogs.mostUsed.
  destruct (countCookies_text c fname len Hc bucket [] eq_refl Hin) as [k Hk].
  fold (ProcessLogs.countCookies bucket) in Hk.
  assert (E : ProcessLogs.mathMax (ProcessLogs.values (ProcessLogs.countCookies bucket))
              = ProcessLogs.NaN).
  { apply mathMax_from_NaN. right. exists (JS.SourceOf fname), k.
    eapply values_In; eauto. }
  rewrite E.
  induction (JS.keys (ProcessLogs.countCookies bucket)) as [|a l IH]; simpl; [reflexivity|].
  destruct (JS.get (ProcessLogs.countCookies bucket) a) as [[n|t j]|i|]; exact IH.
Qed.

(** A date with no bucket that names something on [Object.prototype]. *)
Lemma analyzeLogs_inherited_date m date i :
  JS.getOwn m date = None -> JS.inherited date = Some i ->
  ProcessLogs.analyzeLogs m date
  = if zeroLength i then ([Stdout ProcessLogs.noDataMessage], Return None)
    else throw (TypeError "logs is not iterable").
Proof.
  intros Hm Hi. unfold ProcessLogs.analyzeLogs, JS.get. rewrite Hm, Hi.
  destruct i as [f [|n]|]; reflexivity.
Qed.

(** A surviving line whose date names something on [Object.prototype]
    makes the loop throw. *)
Lemma processAll_inherited lines : forall m r,
  (forall k, JS.getOwn m k <> None -> plain k) ->
  In r (recordsOf lines) -> ~ plain (snd r) ->
  processAll lines m = Throw (TypeError "logMap[date].push is not a function").
Proof.
  induction lines as [|line rest IH]; intros m r Hm Hr Hnp; [contradiction|].
  simpl. rewrite processLine_record.
  unfold recordsOf in Hr. simpl in Hr.
  destruct (recordOf line) as [r0|]; [|eapply IH; eauto].
  unfold JS.get.
  destruct (JS.inherited (snd r0)) as [i|] eqn:Ei.
  - destruct (JS.getOwn m (snd r0)) eqn:Eo; [|reflexivity].
    assert (Hp : plain (snd r0)) by (apply Hm; congruence).
    unfold plain in Hp. congruence.
  - assert (Hrest : In r (recordsOf rest)).
    { simpl in Hr. destruct Hr as [<-|Hr]; [contradiction | exact Hr]. }
    assert (Hset : forall v k,
               JS.getOwn (JS.setOwn m (snd r0) v) k <> None -> plain k).
    { intros v k Hk. destruct (string_dec (snd r0) k) as [<-|Hne]; [exact Ei|].
      rewrite getOwn_setOwn_other in Hk by assumption. now apply Hm. }
    destruct (JS.getOwn m (snd r0)); eapply IH; eauto.
Qed.

(* ================================================================== *)
(** * The ranker *)

Lemma bind_lift_Return {A B : Type} (a : A) (f : A -> Run B) :
  bind (lift (Return a)) f = f a.
Proof. unfold lift, bind. destruct (f a). reflexivity. Qed.

(** X9: On a bucket that is present, not empty and made of plain names, the
    ranker returns each cookie with the maximal count once and no other,
    and nothing but the bucket of the date matters. *)
Lemma analyzeLogs_exact m date bucket :
  JS.getOwn m date = Some bucket -> bucket <> [] ->
  (forall c, In c bucket -> plain c) ->
  exists winners,
    ProcessLogs.analyzeLogs m date = ret (Some winners)
    /\ NoDup winners
    /\ winners <> []
    /\ (forall c, In c winners <-> In c bucket /\ count c bucket = maxCount bucket)
    /\ (forall m', JS.getOwn m' date = Some bucket ->
                   ProcessLogs.analyzeLogs m' date = ret (Some winners)).
Proof.
  intros Hm Hne Hp. exists (ProcessLogs.mostUsed bucket).
  destruct (mostUsed_exact bucket Hne Hp) as [Hnd Hin].
  split; [now apply analyzeLogs_bucket|]. split; [exact Hnd|].
  split; [|split; [exact Hin|]].
  - destruct (listMax_attained (fun c => count c bucket) bucket Hne) as [k [Hk Hg]].
    intros E. assert (H : In k (ProcessLogs.mostUsed bucket)) by (apply Hin; auto).
    rewrite E in H. contradiction.
  - intros m' Hm'. now apply analyzeLogs_bucket.
Qed.

(** A date that is a plain name and has no bucket, or an empty one, gives
    the message and [null]. *)
Lemma analyzeLogs_no_data m date :
  plain date ->
  JS.getOwn m date = None \/ JS.getOwn m date = Some [] ->
  ProcessLogs.analyzeLogs m date = ([Stdout ProcessLogs.noDataMessage], Return None).
Proof.
  intros Hp [H|H]; unfold ProcessLogs.analyzeLogs, JS.get; rewrite H;
    [rewrite Hp|]; reflexivity.
Qed.

(** C1 (the code departs from it): the ranker should return exactly the
    cookies whose count in the bucket of the date is the maximum.  When a
    cookie of the bucket is named like a function of [Object.prototype]
    ([constructor], [toString], [valueOf], ...), its count starts from that
    function and is a text, the maximum is NaN, and the ranker returns no
    cookie at all, whatever the counts of the other cookies are. *)
Theorem analyzeLogs_inherited_name m date bucket c fname len :
  JS.getOwn m date = Some bucket ->
  In c bucket ->
  JS.inherited c = Some (JS.BuiltinFunction fname len) ->
  ProcessLogs.analyzeLogs m date = ret (Some []).
Proof.
  intros Hm Hin Hc.
  rewrite (analyzeLogs_bucket m date bucket Hm)
    by (intros E; rewrite E in Hin; contradiction).
  now rewrite (mostUsed_inherited bucket c fname len).
Qed.

Lemma analyzeLogs_inherited_name_witness :
  let bucket := ["A"; "constructor"; "A"] in
  let m := [("2018-12-09", bucket)] in
  JS.getOwn m "2018-12-09" = Some bucket
  /\ In "constructor" bucket
  /\ JS.inherited "constructor" = Some (JS.BuiltinFunction "Object" 1)
  /\ count "A" bucket = 2
  /\ maxCount bucket = 2
  /\ ProcessLogs.countCookies bucket
     = [("A", ProcessLogs.Count 2);
        ("constructor", ProcessLogs.Text (JS.SourceOf "Object") 1)]
  /\ ProcessLogs.analyzeLogs m "2018-12-09" = ret (Some []).
Proof.
  intros bucket m.
  assert (H1 : JS.getOwn m "2018-12-09" = Some bucket) by reflexivity.
  assert (H2 : In "constructor" bucket) by (simpl; auto).
  assert (H3 : JS.inherited "constructor" = Some (JS.BuiltinFunction "Object" 1))
    by reflexivity.
  repeat (split; [first [exact H1 | exact H2 | exact H3 | reflexivity]|]).
  exact (analyzeLogs_inherited_name m "2018-12-09" bucket "constructor" "Object" 1
           H1 H2 H3).
Defined.

(** C2, as amended: on a non-empty bucket of plain names the ranker
    returns all the tied cookies; those that are array indices come first,
    in ascending numeric order, and the others follow in first-occurrence
    order.  When no cookie of the bucket is an array index the winners are
    in first-occurrence order. *)
Theorem winners_in_key_order m date bucket :
  JS.getOwn m date = Some bucket -> bucket <> [] ->
  (forall c, In c bucket -> plain c) ->
  (exists indices,
      ProcessLogs.analyzeLogs m date
      = ret (Some (filter (maximal bucket)
                     (map snd indices
                      ++ filter (fun k => negb (JS.isArrayIndex k))
                                (firstOccurrences bucket))))
      /\ StronglySorted (fun a b => (fst a <= fst b)%N) indices
      /\ (forall n k, In (n, k) indices <-> In k bucket /\ JS.arrayIndex k = Some n))
  /\ ((forall c, In c bucket -> JS.arrayIndex c = None) ->
      ProcessLogs.analyzeLogs m date = ret (Some (tiedFirstOccurrence bucket))).
Proof.
  intros Hm Hne Hp.
  rewrite (analyzeLogs_bucket m date bucket Hm Hne), mostUsed_plain by assumption.
  split.
  - destruct (keyOrder_shape (firstOccurrences bucket)) as [indices [E [Hs Hi]]].
    exists indices. rewrite E. split; [reflexivity|]. split; [exact Hs|].
    intros n k. rewrite Hi, firstOccurrences_In. reflexivity.
  - intros Hn. rewrite keyOrder_names; [reflexivity|].
    intros k Hk. apply Hn. now apply firstOccurrences_In.
Qed.

Lemma winners_in_key_order_witness :
  let bucket := ["b"; "10"; "9"; "a"; "b"; "9"] in
  let m := [("2018-12-08", ["z"]); ("2018-12-09", bucket)] in
  JS.getOwn m "2018-12-09" = Some bucket
  /\ bucket <> []
  /\ ProcessLogs.analyzeLogs m "2018-12-09" = ret (Some ["9"; "b"])
  /\ exists indices,
      ProcessLogs.analyzeLogs m "2018-12-09"
      = ret (Some (filter (maximal bucket)
                     (map snd indices
                      ++ filter (fun k => negb (JS.isArrayIndex k))
                                (firstOccurrences bucket))))
      /\ StronglySorted (fun a b => (fst a <= fst b)%N) indices
      /\ (forall n k, In (n, k) indices <-> In k bucket /\ JS.arrayIndex k = Some n).
Proof.
  intros bucket m.
  split; [reflexivity|]. split; [discriminate|]. split; [reflexivity|].
  refine (proj1 (winners_in_key_order m "2018-12-09" bucket eq_refl _ _)).
  - discriminate.
  - intros c H. simpl in H.
    repeat (destruct H as [<-|H]; [reflexivity|]). contradiction.
Defined.

(** C2 as stated fails: the bucket 2, 1 has both cookies tied, first
    occurrences in the order 2, 1, and the ranker returns 1, 2. *)
Lemma first_occurrence_order_counterexample :
  let bucket := ["2"; "1"] in
  tiedFirstOccurrence bucket = ["2"; "1"]
  /\ ProcessLogs.analyzeLogs [("2018-12-09", bucket)] "2018-12-09"
     = ret (Some ["1"; "2"])
  /\ ProcessLogs.analyzeLogs [("2018-12-09", bucket)] "2018-12-09"
     <> ret (Some (tiedFirstOccurrence bucket)).
Proof. repeat split. discriminate. Qed.

(** C3 (the code departs from it): an absent or empty bucket should give
    the no-data outcome, and any other outcome a non-empty list of winners.
    When the bucket of the date has a cookie named like a function of
    [Object.prototype], the template method prints neither the message nor
    a cookie: the winners are the empty list.  When the date has no bucket
    and names something on [Object.prototype] whose [length] is not 0, the
    ranker throws instead of giving the message. *)
Theorem no_data_signal_missed parse args content m date :
  parse content = Return m ->
  stringOf (JS.get args "timeStamp") = date ->
  (forall bucket c fname len,
      JS.getOwn m date = Some bucket -> In c bucket ->
      JS.inherited c = Some (JS.BuiltinFunction fname len) ->
      ProcessLogs.findMostUsedCookie parse args content = ([], Return tt))
  /\ (forall i,
        JS.getOwn m date = None -> JS.inherited date = Some i ->
        zeroLength i = false ->
        ProcessLogs.findMostUsedCookie parse args content
        = ([], Throw (TypeError "logs is not iterable"))).
Proof.
  intros Hparse Hdate. unfold ProcessLogs.findMostUsedCookie.
  rewrite Hparse, Hdate, bind_lift_Return. split.
  - intros bucket c fname len Hm Hin Hc.
    rewrite (analyzeLogs_bucket m date bucket Hm)
      by (intros E; rewrite E in Hin; contradiction).
    now rewrite (mostUsed_inherited bucket c fname len).
  - intros i Hm Hi Hz.
    rewrite (analyzeLogs_inherited_date m date i Hm Hi), Hz. reflexivity.
Qed.

Lemma no_data_signal_missed_witness :
  let log := unlines ["cookie,timestamp"; "constructor,2018-12-09T14:19:00+00:00"] in
  let m := [("2018-12-09", ["constructor"])] in
  ProcessCsvLogs.parseFileContent log = Return m
  /\ ProcessLogs.findMostUsedCookie ProcessCsvLogs.parseFileContent
       [("timeStamp", Some "2018-12-09")] log
     = ([], Return tt)
  /\ App.run ["-f"; "log.csv"; "-d"; "2018-12-09"] (fun _ => Content log)
     = {| written := []; exitStatus := 0 |}
  /\ ProcessLogs.findMostUsedCookie ProcessCsvLogs.parseFileContent
       [("timeStamp", Some "constructor")] log
     = ([], Throw (TypeError "logs is not iterable")).
Proof.
  intros log m.
  assert (H1 : ProcessCsvLogs.parseFileContent log = Return m) by reflexivity.
  split; [exact H1|]. split; [|split; [reflexivity|]].
  - refine (proj1 (no_data_signal_missed ProcessCsvLogs.parseFileContent
                     [("timeStamp", Some "2018-12-09")] log m "2018-12-09"
                     H1 eq_refl)
              ["constructor"] "constructor" "Object" 1 eq_refl _ eq_refl).
    simpl; auto.
  - exact (proj2 (no_data_signal_missed ProcessCsvLogs.parseFileContent
                    [("timeStamp", Some "constructor")] log m "constructor"
                    H1 eq_refl)
             (JS.BuiltinFunction "Object" 1) eq_refl eq_refl eq_refl).
Defined.

(* ================================================================== *)
(** * The parser *)

(** C4, as amended: a data line, of the lines the content splits into
    once trimmed, that does not yield two non-empty fields leaves the map as
    it is and ends normally.  The content therefore parses to the result of
    the loop over its lines without that one, buckets or failure, and to the
    same result as every content whose lines, once trimmed, are those. *)
Theorem malformed_line_dropped content header before bad after :
  ProcessCsvLogs.linesOf content = header :: before ++ bad :: after ->
  malformed bad ->
  (forall m, ProcessCsvLogs.processLine bad m = Return m)
  /\ ProcessCsvLogs.parseFileContent content
     = ProcessCsvLogs.parseLines (header :: before ++ after)
  /\ (forall content',
        ProcessCsvLogs.linesOf content' = header :: before ++ after ->
        ProcessCsvLogs.parseFileContent content
        = ProcessCsvLogs.parseFileContent content').
Proof.
  intros H Hbad.
  assert (E : ProcessCsvLogs.parseFileContent content
              = ProcessCsvLogs.parseLines (header :: before ++ after)).
  { unfold ProcessCsvLogs.parseFileContent.
    rewrite H, !parseLines_tail. simpl tl. now apply processAll_without. }
  split; [intros m; now apply processLine_malformed|].
  split; [exact E|].
  intros content' H'. rewrite E.
  unfold ProcessCsvLogs.parseFileContent. now rewrite H'.
Qed.

Lemma malformed_line_dropped_witness :
  let bad := ",2018-12-09T10:13:00+00:00" in
  let content :=
    unlines ["cookie,timestamp"; "A,2018-12-09T14:19:00+00:00"; bad;
             "B,2018-12-09T07:25:00+00:00"] in
  let content' :=
    unlines ["cookie,timestamp"; "A,2018-12-09T14:19:00+00:00";
             "B,2018-12-09T07:25:00+00:00"] in
  ProcessCsvLogs.linesOf content
  = "cookie,timestamp"
    :: ["A,2018-12-09T14:19:00+00:00"] ++ bad :: ["B,2018-12-09T07:25:00+00:00"]
  /\ malformed bad
  /\ ProcessCsvLogs.parseFileContent content = Return [("2018-12-09", ["A"; "B"])]
  /\ ProcessCsvLogs.parseFileContent content
     = ProcessCsvLogs.parseLines
         ["cookie,timestamp"; "A,2018-12-09T14:19:00+00:00";
          "B,2018-12-09T07:25:00+00:00"]
  /\ ProcessCsvLogs.parseFileContent content
     = ProcessCsvLogs.parseFileContent content'.
Proof.
  intros bad content content'.
  assert (Hlines : ProcessCsvLogs.linesOf content
                   = "cookie,timestamp"
                     :: ["A,2018-12-09T14:19:00+00:00"] ++ bad
                     :: ["B,2018-12-09T07:25:00+00:00"]) by reflexivity.
  assert (Hbad : malformed bad) by (apply malformed_recordOf; reflexivity).
  split; [exact Hlines|]. split; [exact Hbad|]. split; [reflexivity|].
  destruct (malformed_line_dropped content "cookie,timestamp"
              ["A,2018-12-09T14:19:00+00:00"] bad ["B,2018-12-09T07:25:00+00:00"]
              Hlines Hbad) as [_ [Hloop Hother]].
  split; [exact Hloop|].
  apply (Hother content'). reflexivity.
Defined.

(** C4 as stated fails on the text itself: in h / A,today_ / ,bad (the
    second line ends with a space) the last line has an empty cookie and is a
    data line, and the content parses to the bucket today_ with its space.
    With that line deleted the text ends with the space, [trim] removes it,
    and the bucket is today: not the same buckets. *)
Lemma malformed_line_counterexample :
  let content := unlines ["h"; "A,today "; ",bad"] in
  let without := unlines ["h"; "A,today "] in
  ProcessCsvLogs.linesOf content = ["h"; "A,today "; ",bad"]
  /\ malformed ",bad"
  /\ ProcessCsvLogs.parseFileContent content = Return [("today ", ["A"])]
  /\ ProcessCsvLogs.linesOf without = ["h"; "A,today"]
  /\ ProcessCsvLogs.parseFileContent without = Return [("today", ["A"])]
  /\ ProcessCsvLogs.parseFileContent content
     <> ProcessCsvLogs.parseFileContent without.
Proof.
  intros content without.
  split; [reflexivity|].
  split; [apply malformed_recordOf; reflexivity|].
  split; [reflexivity|]. split; [reflexivity|]. split; [reflexivity|].
  discriminate.
Qed.

(** C5: the line at index 0 is never parsed.  Two contents whose lines
    after the first are the same parse to the same result, whatever their
    first lines are. *)
Theorem header_never_parsed content content' :
  tl (ProcessCsvLogs.linesOf content) = tl (ProcessCsvLogs.linesOf content') ->
  ProcessCsvLogs.parseFileContent content = ProcessCsvLogs.parseFileContent content'.
Proof.
  intros H. unfold ProcessCsvLogs.parseFileContent.
  now rewrite !parseLines_tail, H.
Qed.

Lemma header_never_parsed_witness :
  let content :=
    unlines ["A,2018-12-09T14:19:00+00:00"; "B,2018-12-09T10:13:00+00:00"] in
  let content' := unlines ["cookie,timestamp"; "B,2018-12-09T10:13:00+00:00"] in
  tl (ProcessCsvLogs.linesOf content) = tl (ProcessCsvLogs.linesOf content')
  /\ ProcessCsvLogs.parseFileContent content = Return [("2018-12-09", ["B"])]
  /\ ProcessCsvLogs.parseFileContent content
     = ProcessCsvLogs.parseFileContent content'.
Proof.
  intros content content'.
  split; [reflexivity|]. split; [reflexivity|].
  apply (header_never_parsed content content'). reflexivity.
Defined.

(** C6 (the code departs from it): every surviving line should have its
    cookie appended to the bucket named by the part of its timestamp before
    the [T].  When that part names something on [Object.prototype], the
    bucket is not created and the append throws: the parse ends with no
    bucket at all. *)
Theorem inherited_date_aborts content r :
  In r (recordsOf (tl (ProcessCsvLogs.linesOf content))) ->
  ~ plain (snd r) ->
  ProcessCsvLogs.parseFileContent content
  = Throw (TypeError "logMap[date].push is not a function").
Proof.
  intros Hr Hnp. unfold ProcessCsvLogs.parseFileContent.
  rewrite parseLines_tail.
  apply (processAll_inherited _ [] r); [|assumption|assumption].
  intros k Hk. now contradiction Hk.
Qed.

Lemma inherited_date_aborts_witness :
  let log :=
    unlines ["cookie,timestamp"; "A,2018-12-09T14:19:00+00:00";
             "B,constructorT10:13:00+00:00"] in
  recordsOf (tl (ProcessCsvLogs.linesOf log))
  = [("A", "2018-12-09"); ("B", "constructor")]
  /\ ~ plain "constructor"
  /\ ProcessCsvLogs.parseFileContent log
     = Throw (TypeError "logMap[date].push is not a function")
  /\ App.run ["-f"; "log.csv"; "-d"; "2018-12-09"] (fun _ => Content log)
     = {| written := [Uncaught (TypeError "logMap[date].push is not a function")];
          exitStatus := 1 |}.
Proof.
  intros log.
  assert (H2 : ~ plain "constructor") by (intros H; discriminate H).
  split; [reflexivity|]. split; [exact H2|]. split; [|reflexivity].
  apply (inherited_date_aborts log ("B", "constructor")); [|exact H2].
  right. left. reflexivity.
Defined.

Lemma split_absent sep s : ~ contains sep s -> JS.split sep s = [s].
Proof.
  unfold contains. induction s as [|c s IH]; simpl; intros H; [reflexivity|].
  destruct (Ascii.eqb_spec c sep) as [->|_]; [exfalso; auto|].
  rewrite IH by tauto. reflexivity.
Qed.

Lemma recordsOf_In line lines r :
  In line lines -> recordOf line = Some r -> In r (recordsOf lines).
Proof.
  intros Hin Hr. unfold recordsOf. apply in_flat_map.
  exists line. split; [assumption|]. rewrite Hr. simpl; auto.
Qed.

Lemma cookiesOn_In c d recs : In (c, d) recs -> In c (cookiesOn d recs).
Proof.
  intros H. unfold cookiesOn. apply (in_map fst _ (c, d)).
  apply filter_In. split; [assumption|]. simpl. apply String.eqb_refl.
Qed.

Lemma dataLine_In (lines : list string) i line :
  1 <= i -> nth_error lines i = Some line -> In line (tl lines).
Proof.
  intros Hi H. destruct i as [|i]; [lia|].
  destruct lines as [|h rest]; [discriminate|].
  simpl in *. eapply nth_error_In; eauto.
Qed.

(** C9, as amended: in a log none of whose dates is a name found on
    [Object.prototype], a data line with two non-empty fields and no [T] in
    its timestamp is not dropped: its cookie is in the bucket named by the
    whole timestamp, so asking for that string as the date is answered with
    winners and not with the no-data outcome; the cookie is one of the
    winners when the cookies of the bucket are plain names and none occurs
    more often in the bucket than it does. *)
Theorem line_without_T_bucketed content i line cookie timestamp :
  1 <= i ->
  nth_error (ProcessCsvLogs.linesOf content) i = Some line ->
  twoFields line cookie timestamp ->
  ~ contains "T"%char timestamp ->
  (forall r, In r (recordsOf (tl (ProcessCsvLogs.linesOf content))) -> plain (snd r)) ->
  exists m bucket winners,
    ProcessCsvLogs.parseFileContent content = Return m
    /\ JS.getOwn m timestamp = Some bucket
    /\ In cookie bucket
    /\ ProcessLogs.analyzeLogs m timestamp = ret (Some winners)
    /\ ((forall c, In c bucket -> plain c) ->
        count cookie bucket = maxCount bucket -> In cookie winners).
Proof.
  intros Hi Hline Hfields HT Hp.
  destruct (parseFileContent_buckets content Hp) as [m [Hm [Hget _]]].
  assert (Hrec : recordOf line = Some (cookie, timestamp)).
  { apply recordOf_twoFields. exists timestamp. split; [assumption|].
    unfold dateOf. now rewrite split_absent. }
  assert (Hin : In cookie (cookiesOn timestamp
                             (recordsOf (tl (ProcessCsvLogs.linesOf content))))).
  { apply cookiesOn_In. eapply recordsOf_In; [|exact Hrec].
    eapply dataLine_In; eauto. }
  specialize (Hget timestamp).
  destruct (cookiesOn timestamp (recordsOf (tl (ProcessCsvLogs.linesOf content))))
    as [|c0 cs] eqn:E; [contradiction|].
  exists m, (c0 :: cs), (ProcessLogs.mostUsed (c0 :: cs)).
  split; [exact Hm|]. split; [exact Hget|]. split; [exact Hin|].
  split; [apply analyzeLogs_bucket; [exact Hget | discriminate]|].
  intros Hplain Hmax.
  apply (mostUsed_exact (c0 :: cs)); [discriminate | assumption | auto].
Qed.

Lemma line_without_T_bucketed_witness :
  let content :=
    unlines ["cookie,timestamp"; "A,today"; "B,2018-12-09T10:13:00+00:00"] in
  1 <= 1
  /\ nth_error (ProcessCsvLogs.linesOf content) 1 = Some "A,today"
  /\ twoFields "A,today" "A" "today"
  /\ ~ contains "T"%char "today"
  /\ exists m bucket winners,
      ProcessCsvLogs.parseFileContent content = Return m
      /\ JS.getOwn m "today" = Some bucket
      /\ In "A" bucket
      /\ ProcessLogs.analyzeLogs m "today" = ret (Some winners)
      /\ ((forall c, In c bucket -> plain c) ->
          count "A" bucket = maxCount bucket -> In "A" winners).
Proof.
  intros content.
  assert (H1 : 1 <= 1) by lia.
  assert (H2 : nth_error (ProcessCsvLogs.linesOf content) 1 = Some "A,today")
    by reflexivity.
  assert (H3 : twoFields "A,today" "A" "today")
    by (exists []; repeat split; discriminate).
  assert (H4 : ~ contains "T"%char "today").
  { unfold contains. simpl. intros H.
    repeat (destruct H as [H|H]; [discriminate H|]). exact H. }
  split; [exact H1|]. split; [exact H2|]. split; [exact H3|]. split; [exact H4|].
  apply (line_without_T_bucketed content 1 "A,today" "A" "today" H1 H2 H3 H4).
  intros r H. vm_compute in H.
  repeat (destruct H as [<-|H]; [reflexivity|]). contradiction.
Defined.

(** C9 as stated fails: the line A,today has two non-empty fields and no
    [T], it is bucketed under today, and asking for today returns B alone,
    which occurs twice there. *)
Lemma line_without_T_counterexample :
  let log := unlines ["cookie,timestamp"; "A,today"; "B,today"; "B,today"] in
  twoFields "A,today" "A" "today"
  /\ ~ contains "T"%char "today"
  /\ ProcessCsvLogs.parseFileContent log = Return [("today", ["A"; "B"; "B"])]
  /\ ProcessLogs.analyzeLogs [("today", ["A"; "B"; "B"])] "today" = ret (Some ["B"])
  /\ ~ In "A" ["B"]
  /\ App.run ["-f"; "log.csv"; "-d"; "today"] (fun _ => Content log)
     = {| written := [Stdout "B"]; exitStatus := 0 |}.
Proof.
  intros log.
  split; [exists []; repeat split; discriminate|].
  split.
  { unfold contains. simpl. intros H.
    repeat (destruct H as [H|H]; [discriminate H|]). exact H. }
  split; [reflexivity|]. split; [reflexivity|].
  split; [|reflexivity].
  simpl. intros [H|H]; [discriminate H | exact H].
Qed.

(* ================================================================== *)
(** * The command line *)

Lemma parseArguments_both fileName date :
  App.parseArguments ["-f"; fileName; "-d"; date]
  = [("fileName", Some fileName); ("timeStamp", Some date)].
Proof. reflexivity. Qed.

(** X8: A file whose extension is not csv, read without error and asked for a
    date that is a plain name: the message, no cookie line, status 0. *)
Lemma unknown_extension_no_data fileName date text readFileSync :
  fileName <> EmptyString -> date <> EmptyString ->
  JS.toLowerCase (last (JS.split "."%char fileName) EmptyString) <> "csv" ->
  readFileSync fileName = Content text ->
  plain date ->
  App.run ["-f"; fileName; "-d"; date] readFileSync
  = {| written := [Stdout ProcessLogs.noDataMessage]; exitStatus := 0 |}.
Proof.
  intros Hf Hd Hext Hread Hp.
  unfold App.run, App.main. rewrite parseArguments_both.
  destruct fileName as [|a fileName]; [contradiction|].
  destruct date as [|b date]; [contradiction|].
  cbn [JS.get JS.getOwn JS.assoc String.eqb Ascii.eqb Bool.eqb isFalsy JS.falsy].
  unfold App.retrieveFileContent, App.getFileExtension.
  cbn [JS.get JS.getOwn JS.assoc String.eqb Ascii.eqb Bool.eqb stringOf JS.toPropertyKey].
  rewrite Hread.
  destruct (String.eqb_spec
              (JS.toLowerCase (last (JS.split "."%char (String a fileName)) EmptyString))
              "csv") as [E|_]; [contradiction|].
  unfold ProcessLogs.findMostUsedCookie, ProcessLogs.parseFileContent.
  cbn [JS.get JS.getOwn JS.assoc String.eqb Ascii.eqb Bool.eqb stringOf JS.toPropertyKey].
  unfold ret, lift, bind at 1 2.
  rewrite (analyzeLogs_no_data [] (String b date) Hp (or_introl eq_refl)).
  reflexivity.
Qed.

(** C7 (the code departs from it): with an extension other than csv
    every date should end in the no-data message and status 0.  The map is
    empty and no error is raised by the adapter, but for a date that names
    something on [Object.prototype] whose [length] is not 0, such as
    [constructor], the read of the empty map finds that value and the loop
    over it throws: no message, a report of the exception, status 1. *)
Theorem unknown_extension_inherited_date fileName date text readFileSync i :
  fileName <> EmptyString ->
  JS.toLowerCase (last (JS.split "."%char fileName) EmptyString) <> "csv" ->
  readFileSync fileName = Content text ->
  JS.inherited date = Some i -> zeroLength i = false ->
  ProcessLogs.parseFileContent text = Return []
  /\ App.run ["-f"; fileName; "-d"; date] readFileSync
     = {| written := [Uncaught (TypeError "logs is not iterable")]; exitStatus := 1 |}.
Proof.
  intros Hf Hext Hread Hi Hz. split; [reflexivity|].
  unfold App.run, App.main. rewrite parseArguments_both.
  destruct fileName as [|a fileName]; [contradiction|].
  destruct date as [|b date]; [discriminate Hi|].
  cbn [JS.get JS.getOwn JS.assoc String.eqb Ascii.eqb Bool.eqb isFalsy JS.falsy].
  unfold App.retrieveFileContent, App.getFileExtension.
  cbn [JS.get JS.getOwn JS.assoc String.eqb Ascii.eqb Bool.eqb stringOf JS.toPropertyKey].
  rewrite Hread.
  destruct (String.eqb_spec
              (JS.toLowerCase (last (JS.split "."%char (String a fileName)) EmptyString))
              "csv") as [E|_]; [contradiction|].
  unfold ProcessLogs.findMostUsedCookie, ProcessLogs.parseFileContent.
  cbn [JS.get JS.getOwn JS.assoc String.eqb Ascii.eqb Bool.eqb stringOf JS.toPropertyKey].
  unfold ret, lift, bind at 1 2.
  rewrite (analyzeLogs_inherited_date [] (String b date) i eq_refl Hi), Hz.
  reflexivity.
Qed.

Lemma unknown_extension_inherited_date_witness :
  let readFileSync := fun _ : string => Content "[]" in
  "cookies.json" <> EmptyString
  /\ App.getFileExtension (App.parseArguments ["-f"; "cookies.json"; "-d"; "constructor"])
     = "json"
  /\ JS.inherited "constructor" = Some (JS.BuiltinFunction "Object" 1)
  /\ App.run ["-f"; "cookies.json"; "-d"; "constructor"] readFileSync
     = {| written := [Uncaught (TypeError "logs is not iterable")]; exitStatus := 1 |}.
Proof.
  intros readFileSync.
  assert (H1 : "cookies.json" <> EmptyString) by discriminate.
  split; [exact H1|]. split; [reflexivity|]. split; [reflexivity|].
  refine (proj2 (unknown_extension_inherited_date "cookies.json" "constructor" "[]"
                   readFileSync (JS.BuiltinFunction "Object" 1)
                   H1 _ eq_refl eq_refl eq_refl)).
  discriminate.
Defined.

(** C8 (the code departs from it): an unreadable file should be reported
    with its path and with the message of the system error.  The path is
    written; the message is not, because the handler reads [error] where the
    exception is named [e]: what follows the path is the report of that
    ReferenceError.  Nothing reaches standard output and the status is 1. *)
Theorem unreadable_file_report path date message readFileSync :
  path <> EmptyString -> date <> EmptyString ->
  readFileSync path = Failure message ->
  App.run ["-f"; path; "-d"; date] readFileSync
  = {| written := [Stderr ("Error: Cannot read file '" ++ path ++ "'")%string;
                   Uncaught (ReferenceError "error is not defined")];
       exitStatus := 1 |}.
Proof.
  intros Hp Hd Hread.
  unfold App.run, App.main. rewrite parseArguments_both.
  destruct path as [|a path]; [contradiction|].
  destruct date as [|b date]; [contradiction|].
  cbn [JS.get JS.getOwn JS.assoc String.eqb Ascii.eqb Bool.eqb isFalsy JS.falsy].
  unfold App.retrieveFileContent.
  cbn [JS.get JS.getOwn JS.assoc String.eqb Ascii.eqb Bool.eqb stringOf JS.toPropertyKey].
  rewrite Hread. reflexivity.
Qed.

Lemma unreadable_file_report_witness :
  let readFileSync :=
    fun _ : string => Failure "ENOENT: no such file or directory, open 'missing.csv'" in
  "missing.csv" <> EmptyString
  /\ "2018-12-09" <> EmptyString
  /\ App.run ["-f"; "missing.csv"; "-d"; "2018-12-09"] readFileSync
     = {| written := [Stderr "Error: Cannot read file 'missing.csv'";
                      Uncaught (ReferenceError "error is not defined")];
          exitStatus := 1 |}.
Proof.
  intros readFileSync.
  assert (H1 : "missing.csv" <> EmptyString) by discriminate.
  assert (H2 : "2018-12-09" <> EmptyString) by discriminate.
  split; [exact H1|]. split; [exact H2|].
  exact (unreadable_file_report "missing.csv" "2018-12-09"
           "ENOENT: no such file or directory, open 'missing.csv'" readFileSync
           H1 H2 eq_refl).
Defined.

(** C10: the arguments are chunked in pairs by position; what [main]
    reads as the file name is the value of the last pair whose flag is -f,
    and as the date that of the last pair whose flag is -d; a pair with any
    other flag changes nothing of what the process does. *)
Theorem arguments_paired_by_position args :
  Utilities.chunk args 2 = map chunkOf (pairs args)
  /\ JS.get (App.parseArguments args) "fileName"
     = found (lastOccurrence "-f" (pairs args))
  /\ JS.get (App.parseArguments args) "timeStamp"
     = found (lastOccurrence "-d" (pairs args))
  /\ (forall flag value after readFileSync,
        Nat.even (length args) = true -> flag <> "-f" -> flag <> "-d" ->
        App.run (args ++ flag :: value :: after) readFileSync
        = App.run (args ++ after) readFileSync).
Proof.
  split; [apply chunk_pairs|].
  split; [apply (parseArguments_read "-f" "fileName"); auto|].
  split; [apply (parseArguments_read "-d" "timeStamp"); auto|].
  intros flag value after readFileSync He Hf Hd.
  unfold App.run. f_equal. apply main_reads.
  - rewrite !(parseArguments_read "-f" "fileName") by auto.
    rewrite !pairs_app_even by assumption.
    change (pairs (flag :: value :: after)) with ((flag, Some value) :: pairs after).
    now rewrite lastOccurrence_skip.
  - rewrite !(parseArguments_read "-d" "timeStamp") by auto.
    rewrite !pairs_app_even by assumption.
    change (pairs (flag :: value :: after)) with ((flag, Some value) :: pairs after).
    now rewrite lastOccurrence_skip.
Qed.

Lemma arguments_paired_by_position_witness :
  let args := ["-f"; "old.csv"] in
  let after := ["-d"; "2018-12-09"; "-f"; "new.csv"] in
  let readFileSync := fun _ : string => Content "cookie,timestamp" in
  Nat.even (length args) = true
  /\ "constructor" <> "-f"
  /\ "constructor" <> "-d"
  /\ JS.get (App.parseArguments (args ++ "constructor" :: "x" :: after)) "fileName"
     = JS.Own (Some "new.csv")
  /\ App.run (args ++ "constructor" :: "x" :: after) readFileSync
     = App.run (args ++ after) readFileSync.
Proof.
  intros args after readFileSync.
  assert (H1 : Nat.even (length args) = true) by reflexivity.
  assert (H2 : "constructor" <> "-f") by discriminate.
  assert (H3 : "constructor" <> "-d") by discriminate.
  split; [exact H1|]. split; [exact H2|]. split; [exact H3|].
  split; [reflexivity|].
  exact (proj2 (proj2 (proj2 (arguments_paired_by_position args)))
           "constructor" "x" after readFileSync H1 H2 H3).
Defined.

(* ================================================================== *)
(** * The documented examples *)

(** The log of the README, asked for 2018-12-09. *)
Example readme_most_active :
  App.run ["-f"; "cookie_log.csv"; "-d"; "2018-12-09"]
    (fun _ => Content (unlines
       ["cookie,timestamp";
        "AtY0laUfhglK3lC7,2018-12-09T14:19:00+00:00";
        "SAZuXPGUrfbcn5UA,2018-12-09T10:13:00+00:00";
        "5UAVanZf6UtGyKVS,2018-12-09T07:25:00+00:00";
        "AtY0laUfhglK3lC7,2018-12-09T06:19:00+00:00";
        "SAZuXPGUrfbcn5UA,2018-12-08T22:03:00+00:00"]))
  = {| written := [Stdout "AtY0laUfhglK3lC7"]; exitStatus := 0 |}.
Proof. reflexivity. Qed.

(** Two cookies tied on 2018-12-08: both, in the order of the log. *)
Example readme_multiple_results :
  App.run ["-f"; "cookie_log.csv"; "-d"; "2018-12-08"]
    (fun _ => Content (unlines
       ["cookie,timestamp";
        "AtY0laUfhglK3lC7,2018-12-09T14:19:00+00:00";
        "SAZuXPGUrfbcn5UA,2018-12-08T22:03:00+00:00";
        "4sMM2LxV07bPJzwf,2018-12-08T21:30:00+00:00"]))
  = {| written := [Stdout "SAZuXPGUrfbcn5UA"; Stdout "4sMM2LxV07bPJzwf"];
       exitStatus := 0 |}.
Proof. reflexivity. Qed.

(** A date the log does not have. *)
Example absent_date :
  App.run ["-f"; "cookie_log.csv"; "-d"; "2099-01-01"]
    (fun _ => Content (unlines
       ["cookie,timestamp"; "AtY0laUfhglK3lC7,2018-12-09T14:19:00+00:00"]))
  = {| written := [Stdout ProcessLogs.noDataMessage]; exitStatus := 0 |}.
Proof. reflexivity. Qed.

(** A flag is missing. *)
Example missing_date_flag :
  App.run ["-f"; "cookie_log.csv"] (fun _ => Content EmptyString)
  = {| written := [Stderr "Error: Missing required parameter -d (date)";
                   Stderr App.usage];
       exitStatus := 1 |}.
Proof. reflexivity. Qed.

(* ================================================================== *)
(** * Chunks of any size *)

Lemma div_after_full size n r : r < size -> (size * n + r) / size = n.
Proof. intros H. symmetry. apply (Nat.div_unique _ _ _ r); lia. Qed.

Lemma chunk_step_new {A : Type} (full : list (list A)) x :
  Utilities.pushAt
    match nth_error (full ++ []) (length full) with
    | Some _ => full ++ []
    | None => (full ++ []) ++ [[]]
    end (length full) x
  = full ++ [[x]].
Proof. rewrite app_nil_r, nth_error_length. exact (pushAt_last full [] x). Qed.

Lemma chunk_step_old {A : Type} (full : list (list A)) c x :
  Utilities.pushAt
    match nth_error (full ++ [c]) (length full) with
    | Some _ => full ++ [c]
    | None => (full ++ [c]) ++ [[]]
    end (length full) x
  = full ++ [c ++ [x]].
Proof. rewrite nth_error_last. apply pushAt_last. Qed.

Lemma chunkLoop_shape {A : Type} (size : nat) :
  0 < size ->
  forall (rest : list A) full tail,
    Forall (fun c => length c = size) full ->
    partialChunk size tail ->
    exists full' tail',
      Utilities.chunkLoop rest size
        (size * length full + length (concat tail)) (full ++ tail)
      = full' ++ tail'
      /\ Forall (fun c => length c = size) full'
      /\ partialChunk size tail'
      /\ concat (full' ++ tail') = concat (full ++ tail) ++ rest.
Proof.
  intros Hs. induction rest as [|x rest IH]; intros full tail Hfull Htail.
  - exists full, tail. simpl. now rewrite app_nil_r.
  - destruct Htail as [->|[c [-> Hc]]].
    + destruct (Nat.eq_dec size 1) as [E|E].
      * destruct (IH (full ++ [[x]]) []) as [full' [tail' [H1 [H2 [H3 H4]]]]].
        { apply Forall_app. split; [assumption|]. constructor; [simpl; lia|constructor]. }
        { left. reflexivity. }
        exists full', tail'.
        split; [|split; [assumption|split; [assumption|]]].
        -- cbn [Utilities.chunkLoop]. simpl concat. simpl length at 2.
           rewrite div_after_full by assumption. rewrite chunk_step_new.
           rewrite <- H1, app_nil_r. f_equal.
           rewrite length_app. simpl. lia.
        -- rewrite H4, !app_nil_r, concat_app. simpl.
           now rewrite <- app_assoc.
      * destruct (IH full [[x]]) as [full' [tail' [H1 [H2 [H3 H4]]]]].
        { assumption. }
        { right. exists [x]. split; [reflexivity | simpl; lia]. }
        exists full', tail'.
        split; [|split; [assumption|split; [assumption|]]].
        -- cbn [Utilities.chunkLoop]. simpl concat. simpl length at 2.
           rewrite div_after_full by assumption. rewrite chunk_step_new.
           rewrite <- H1. f_equal. simpl. lia.
        -- rewrite H4, !app_nil_r, concat_app. simpl.
           now rewrite <- app_assoc.
    + assert (El : length (concat [c]) = length c)
        by (simpl; now rewrite app_nil_r).
      destruct (Nat.eq_dec (S (length c)) size) as [E|E].
      * destruct (IH (full ++ [c ++ [x]]) []) as [full' [tail' [H1 [H2 [H3 H4]]]]].
        { apply Forall_app. split; [assumption|].
          constructor; [rewrite length_app; simpl; lia | constructor]. }
        { left. reflexivity. }
        exists full', tail'.
        split; [|split; [assumption|split; [assumption|]]].
        -- cbn [Utilities.chunkLoop].
           rewrite El, div_after_full by lia. rewrite chunk_step_old.
           rewrite <- H1, app_nil_r. f_equal.
           rewrite length_app. simpl. lia.
        -- rewrite H4, app_nil_r, !concat_app. simpl.
           rewrite !app_nil_r. now rewrite <- !app_assoc.
      * destruct (IH full [c ++ [x]]) as [full' [tail' [H1 [H2 [H3 H4]]]]].
        { assumption. }
        { right. exists (c ++ [x]). split; [reflexivity|].
          rewrite length_app. simpl. lia. }
        exists full', tail'.
        split; [|split; [assumption|split; [assumption|]]].
        -- cbn [Utilities.chunkLoop].
           rewrite El, div_after_full by lia. rewrite chunk_step_old.
           rewrite <- H1. f_equal.
           simpl. rewrite app_nil_r, length_app. simpl. lia.
        -- rewrite H4, !concat_app. simpl.
           rewrite !app_nil_r. now rewrite <- !app_assoc.
Qed.

(** X1: [chunk] with a size above 0 cuts the array into consecutive chunks:
    put end to end they give the array back, each holds [size] elements,
    except that the last may hold fewer, and none is empty. *)
Theorem chunk_shape {A : Type} (array : list A) (size : nat) :
  0 < size ->
  exists full tail,
    Utilities.chunk array size = full ++ tail
    /\ Forall (fun c => length c = size) full
    /\ partialChunk size tail
    /\ concat (Utilities.chunk array size) = array.
Proof.
  intros Hs. unfold Utilities.chunk.
  destruct size as [|size]; [lia|].
  destruct (chunkLoop_shape (S size) Hs array [] []) as [full [tail [H1 [H2 [H3 H4]]]]].
  - constructor.
  - left. reflexivity.
  - exists full, tail.
    replace (S size * length (@nil (list A)) + length (concat (@nil (list A))))
      with 0 in H1 by (simpl; lia).
    simpl app in H1. rewrite H1.
    split; [reflexivity|]. split; [assumption|]. split; [assumption|].
    exact H4.
Qed.

Lemma chunk_shape_witness :
  0 < 3
  /\ Utilities.chunk ["a"; "b"; "c"; "d"; "e"; "f"; "g"] 3
     = [["a"; "b"; "c"]; ["d"; "e"; "f"]; ["g"]]
  /\ exists full tail,
      Utilities.chunk ["a"; "b"; "c"; "d"; "e"; "f"; "g"] 3 = full ++ tail
      /\ Forall (fun c => length c = 3) full
      /\ partialChunk 3 tail
      /\ concat (Utilities.chunk ["a"; "b"; "c"; "d"; "e"; "f"; "g"] 3)
         = ["a"; "b"; "c"; "d"; "e"; "f"; "g"].
Proof.
  assert (H : 0 < 3) by lia.
  split; [exact H|]. split; [reflexivity|].
  exact (chunk_shape ["a"; "b"; "c"; "d"; "e"; "f"; "g"] 3 H).
Defined.

(* ================================================================== *)
(** * Required parameters *)

Lemma isFalsy_found flag args :
  isFalsy (found (lastOccurrence flag (pairs args)))
  = match valueOf flag args with Some _ => false | None => true end.
Proof.
  unfold valueOf.
  destruct (lastOccurrence flag (pairs args)) as [[[|a s]|]|]; reflexivity.
Qed.

Lemma found_valueOf flag args v :
  valueOf flag args = Some v ->
  found (lastOccurrence flag (pairs args)) = JS.Own (Some v).
Proof.
  unfold valueOf.
  destruct (lastOccurrence flag (pairs args)) as [[[|a s]|]|]; try discriminate.
  intros H. inversion H. reflexivity.
Qed.

(** X2: Without a usable value for -f (no pair with the flag, or the last one
    has no value or an empty one) the run ends with the usage message on
    standard error and status 1, and the file system is not consulted. *)
Theorem file_flag_required args readFileSync :
  valueOf "-f" args = None ->
  App.run args readFileSync
  = usageFailure "Error: Missing required parameter -f (filename)".
Proof.
  intros H. unfold App.run, App.main.
  rewrite (parseArguments_read "-f" "fileName") by auto.
  rewrite isFalsy_found, H. reflexivity.
Qed.

Lemma file_flag_required_witness :
  let args := ["-f"; "log.csv"; "-d"; "2018-12-09"; "-f"] in
  valueOf "-f" args = None
  /\ App.run args (fun _ => Content "cookie,timestamp")
     = usageFailure "Error: Missing required parameter -f (filename)".
Proof.
  intros args.
  assert (H : valueOf "-f" args = None) by reflexivity.
  split; [exact H|].
  exact (file_flag_required args (fun _ => Content "cookie,timestamp") H).
Defined.

(** X3: With a file name but no usable value for -d the run ends the same
    way, naming the date, again without reading the file. *)
Theorem date_flag_required args readFileSync fileName :
  valueOf "-f" args = Some fileName ->
  valueOf "-d" args = None ->
  App.run args readFileSync
  = usageFailure "Error: Missing required parameter -d (date)".
Proof.
  intros Hf Hd. unfold App.run, App.main.
  rewrite (parseArguments_read "-f" "fileName") by auto.
  rewrite (parseArguments_read "-d" "timeStamp") by auto.
  rewrite !isFalsy_found, Hf, Hd. reflexivity.
Qed.

Lemma date_flag_required_witness :
  let args := ["-d"; "2018-12-09"; "-f"; "log.csv"; "-d"; EmptyString] in
  valueOf "-f" args = Some "log.csv"
  /\ valueOf "-d" args = None
  /\ App.run args (fun _ => Failure "EACCES")
     = usageFailure "Error: Missing required parameter -d (date)".
Proof.
  intros args.
  assert (H1 : valueOf "-f" args = Some "log.csv") by reflexivity.
  assert (H2 : valueOf "-d" args = None) by reflexivity.
  split; [exact H1|]. split; [exact H2|].
  exact (date_flag_required args (fun _ => Failure "EACCES") "log.csv" H1 H2).
Defined.

(** X4: Only the two values count: whatever the order of the flags, the
    repetitions and the other arguments, the run is that of
    -f fileName -d date. *)
Theorem run_of_values args readFileSync fileName date :
  valueOf "-f" args = Some fileName ->
  valueOf "-d" args = Some date ->
  App.run args readFileSync = App.run ["-f"; fileName; "-d"; date] readFileSync.
Proof.
  intros Hf Hd. unfold App.run. f_equal. apply main_reads.
  - rewrite (parseArguments_read "-f" "fileName") by auto.
    rewrite (found_valueOf _ _ _ Hf), parseArguments_both. reflexivity.
  - rewrite (parseArguments_read "-d" "timeStamp") by auto.
    rewrite (found_valueOf _ _ _ Hd), parseArguments_both. reflexivity.
Qed.

Lemma run_of_values_witness :
  let args := ["-d"; "2018-12-08"; "-x"; "-f"; "-f"; "log.csv"; "-d"; "2018-12-09"] in
  let readFileSync := fun _ : string =>
    Content (unlines ["cookie,timestamp"; "A,2018-12-09T14:19:00+00:00"]) in
  valueOf "-f" args = Some "log.csv"
  /\ valueOf "-d" args = Some "2018-12-09"
  /\ App.run args readFileSync = {| written := [Stdout "A"]; exitStatus := 0 |}
  /\ App.run args readFileSync
     = App.run ["-f"; "log.csv"; "-d"; "2018-12-09"] readFileSync.
Proof.
  intros args readFileSync.
  assert (H1 : valueOf "-f" args = Some "log.csv") by reflexivity.
  assert (H2 : valueOf "-d" args = Some "2018-12-09") by reflexivity.
  split; [exact H1|]. split; [exact H2|]. split; [reflexivity|].
  exact (run_of_values args readFileSync "log.csv" "2018-12-09" H1 H2).
Defined.

(* ================================================================== *)
(** * The extension *)

Lemma split_nonempty sep s : JS.split sep s <> [].
Proof.
  destruct s as [|c s]; simpl; [discriminate|].
  destruct (Ascii.eqb c sep); [discriminate|].
  destruct (JS.split sep s); discriminate.
Qed.

(** Splitting distributes over a separator. *)
Lemma split_app sep x y :
  JS.split sep (x ++ String sep y)%string = JS.split sep x ++ JS.split sep y.
Proof.
  induction x as [|c x IH]; simpl.
  - now rewrite Ascii.eqb_refl.
  - destruct (Ascii.eqb c sep); [now rewrite IH|].
    rewrite IH. destruct (JS.split sep x) as [|h t] eqn:E; [|reflexivity].
    now apply split_nonempty in E.
Qed.

Lemma last_app_nonempty {A : Type} (l l' : list A) d :
  l' <> [] -> last (l ++ l') d = last l' d.
Proof.
  intros H. induction l as [|a l IH]; [reflexivity|].
  simpl. destruct (l ++ l') eqn:E; [|exact IH].
  apply app_eq_nil in E. destruct E; contradiction.
Qed.

(** X5: For a file name whose last segment is made of ASCII characters,
    the extension is what follows the last dot, with the letters A to Z in
    lower case; a name without a dot is its own extension. *)
Theorem extension_after_last_dot (argMap : JS.props argValue) :
  (forall base ext,
      asciiOnly ext = true ->
      ~ contains "."%char ext ->
      JS.get argMap "fileName" = JS.Own (Some (base ++ String "."%char ext)%string) ->
      App.getFileExtension argMap = JS.toLowerCase ext)
  /\ (forall name,
        asciiOnly name = true ->
        ~ contains "."%char name ->
        JS.get argMap "fileName" = JS.Own (Some name) ->
        App.getFileExtension argMap = JS.toLowerCase name).
Proof.
  split.
  - intros base ext _ Hext Hget. unfold App.getFileExtension. rewrite Hget.
    cbn [stringOf JS.toPropertyKey].
    rewrite split_app, last_app_nonempty by apply split_nonempty.
    now rewrite split_absent.
  - intros name _ Hname Hget. unfold App.getFileExtension. rewrite Hget.
    cbn [stringOf JS.toPropertyKey]. now rewrite split_absent.
Qed.

Lemma extension_after_last_dot_witness :
  let argMap := App.parseArguments ["-f"; "logs.2018/COOKIES.Csv"; "-d"; "2018-12-09"] in
  asciiOnly "Csv" = true
  /\ ~ contains "."%char "Csv"
  /\ JS.get argMap "fileName" = JS.Own (Some "logs.2018/COOKIES.Csv")
  /\ App.getFileExtension argMap = "csv"
  /\ App.getFileExtension argMap = JS.toLowerCase "Csv".
Proof.
  intros argMap.
  assert (H0 : asciiOnly "Csv" = true) by reflexivity.
  assert (H1 : ~ contains "."%char "Csv").
  { unfold contains. simpl. intros H.
    repeat (destruct H as [H|H]; [discriminate H|]). exact H. }
  assert (H2 : JS.get argMap "fileName" = JS.Own (Some "logs.2018/COOKIES.Csv"))
    by reflexivity.
  split; [exact H0|]. split; [exact H1|]. split; [exact H2|]. split; [reflexivity|].
  exact (proj1 (extension_after_last_dot argMap) "logs.2018/COOKIES" "Csv" H0 H1 H2).
Defined.

(* ================================================================== *)
(** * The whole run *)

Lemma bind_ret {A B : Type} (a : A) (f : A -> Run B) : bind (ret a) f = f a.
Proof. exact (bind_lift_Return a f). Qed.

Lemma forEachLog_lines cookies :
  ProcessLogs.forEachLog cookies = (cookieLines cookies, Return tt).
Proof.
  induction cookies as [|c cookies IH]; [reflexivity|].
  simpl. rewrite IH. reflexivity.
Qed.

(** X6: A readable csv file, in a world of plain names: the run prints the
    cookies with the maximal count among those the log records for the
    date, one per line in the order of [Object.keys], or the message when
    the log records none for the date; the status is 0 either way. *)
Theorem csv_run fileName date text readFileSync :
  let records := recordsOf (tl (ProcessCsvLogs.linesOf text)) in
  let bucket := cookiesOn date records in
  fileName <> EmptyString -> date <> EmptyString ->
  JS.toLowerCase (last (JS.split "."%char fileName) EmptyString) = "csv" ->
  readFileSync fileName = Content text ->
  (forall r, In r records -> plain (snd r)) ->
  plain date ->
  (forall c, In c bucket -> plain c) ->
  App.run ["-f"; fileName; "-d"; date] readFileSync
  = {| written :=
         match bucket with
         | [] => [Stdout ProcessLogs.noDataMessage]
         | _ => cookieLines (filter (maximal bucket)
                               (JS.keyOrder (firstOccurrences bucket)))
         end;
       exitStatus := 0 |}.
Proof.
  intros records bucket Hf Hd Hext Hread Hrec Hdate Hbucket.
  unfold App.run, App.main. rewrite parseArguments_both.
  destruct fileName as [|a fileName]; [contradiction|].
  destruct date as [|b date]; [contradiction|].
  cbn [JS.get JS.getOwn JS.assoc String.eqb Ascii.eqb Bool.eqb isFalsy JS.falsy].
  unfold App.retrieveFileContent, App.getFileExtension.
  cbn [JS.get JS.getOwn JS.assoc String.eqb Ascii.eqb Bool.eqb stringOf JS.toPropertyKey].
  rewrite Hread, bind_ret, Hext. cbn [String.eqb Ascii.eqb Bool.eqb].
  unfold ProcessCsvLogs.findMostUsedCookie, ProcessLogs.findMostUsedCookie.
  cbn [JS.get JS.getOwn JS.assoc String.eqb Ascii.eqb Bool.eqb stringOf JS.toPropertyKey].
  destruct (parseFileContent_buckets text Hrec) as [m [Hm [Hget _]]].
  rewrite Hm, bind_lift_Return.
  specialize (Hget (String b date)). fold records in Hget. fold bucket in Hget.
  destruct bucket as [|c0 cs] eqn:E.
  - rewrite (analyzeLogs_no_data m (String b date) Hdate (or_introl Hget)).
    reflexivity.
  - rewrite (analyzeLogs_bucket m (String b date) (c0 :: cs) Hget) by discriminate.
    rewrite bind_ret, forEachLog_lines.
    rewrite mostUsed_plain by (discriminate || assumption).
    reflexivity.
Qed.

Lemma csv_run_witness :
  let text :=
    unlines ["cookie,timestamp"; "B,2018-12-09T14:19:00+00:00";
             "A,2018-12-09T10:13:00+00:00"; "broken line";
             "A,2018-12-09T07:25:00+00:00"; "B,2018-12-09T06:19:00+00:00";
             "C,2018-12-09T05:00:00+00:00"; "C,2018-12-08T22:03:00+00:00"] in
  let readFileSync := fun _ : string => Content text in
  "Log.CSV" <> EmptyString
  /\ "2018-12-09" <> EmptyString
  /\ cookiesOn "2018-12-09" (recordsOf (tl (ProcessCsvLogs.linesOf text)))
     = ["B"; "A"; "A"; "B"; "C"]
  /\ App.run ["-f"; "Log.CSV"; "-d"; "2018-12-09"] readFileSync
     = {| written := [Stdout "B"; Stdout "A"]; exitStatus := 0 |}.
Proof.
  intros text readFileSync.
  assert (H1 : "Log.CSV" <> EmptyString) by discriminate.
  assert (H2 : "2018-12-09" <> EmptyString) by discriminate.
  split; [exact H1|]. split; [exact H2|]. split; [reflexivity|].
  refine (eq_trans
            (csv_run "Log.CSV" "2018-12-09" text readFileSync
               H1 H2 eq_refl eq_refl _ eq_refl _) _).
  - intros r H. vm_compute in H.
    repeat (destruct H as [<-|H]; [reflexivity|]). contradiction.
  - intros c H. vm_compute in H.
    repeat (destruct H as [<-|H]; [reflexivity|]). contradiction.
  - reflexivity.
Defined.

Lemma processLine_no_exit line m code :
  ProcessCsvLogs.processLine line m <> Exit code.
Proof.
  rewrite processLine_record.
  destruct (recordOf line) as [r|]; [|discriminate].
  destruct (JS.get m (snd r)); discriminate.
Qed.

Lemma processAll_no_exit lines : forall m code, processAll lines m <> Exit code.
Proof.
  induction lines as [|line rest IH]; intros m code; simpl; [discriminate|].
  destruct (ProcessCsvLogs.processLine line m) eqn:E.
  - apply IH.
  - discriminate.
  - now apply processLine_no_exit in E.
Qed.

Lemma findMostUsedCookie_streams parse args content :
  (forall code, parse content <> Exit code) ->
  let r := runProcess (ProcessLogs.findMostUsedCookie parse args content) in
  (exitStatus r = 0 /\ Forall (fun ev => isStdout ev = true) (written r))
  \/ (exitStatus r = 1 /\ Forall (fun ev => isStdout ev = false) (written r)).
Proof.
  intros Hparse. unfold ProcessLogs.findMostUsedCookie.
  destruct (parse content) as [m|e|code] eqn:E.
  - rewrite bind_lift_Return.
    unfold ProcessLogs.analyzeLogs.
    destruct (JS.get m (stringOf (JS.get args "timeStamp"))) as [[|c logs]|[f [|n]|]|].
    + left. simpl. repeat constructor.
    + left. rewrite bind_ret, forEachLog_lines. simpl. split; [reflexivity|].
      unfold cookieLines. apply Forall_forall. intros ev Hev.
      apply in_map_iff in Hev. destruct Hev as [x [<- _]]. reflexivity.
    + left. simpl. repeat constructor.
    + right. simpl. repeat constructor.
    + right. simpl. repeat constructor.
    + left. simpl. repeat constructor.
  - right. simpl. repeat constructor.
  - exfalso. exact (Hparse code eq_refl).
Qed.

(** X7: Every run ends with status 0 or 1.  With status 0 it has written to
    standard output only; with status 1 it has written nothing there: no
    cookie line is ever followed by a failure. *)
Theorem status_and_streams args readFileSync :
  let r := App.run args readFileSync in
  (exitStatus r = 0 /\ Forall (fun ev => isStdout ev = true) (written r))
  \/ (exitStatus r = 1 /\ Forall (fun ev => isStdout ev = false) (written r)).
Proof.
  unfold App.run, App.main.
  destruct (isFalsy (JS.get (App.parseArguments args) "fileName"));
    [right; simpl; repeat constructor|].
  destruct (isFalsy (JS.get (App.parseArguments args) "timeStamp"));
    [right; simpl; repeat constructor|].
  unfold App.retrieveFileContent.
  destruct (readFileSync (stringOf (JS.get (App.parseArguments args) "fileName")))
    as [text|message]; [|right; simpl; repeat constructor].
  rewrite bind_ret.
  destruct (String.eqb (App.getFileExtension (App.parseArguments args)) "csv").
  - apply findMostUsedCookie_streams. intros code.
    unfold ProcessCsvLogs.parseFileContent. rewrite parseLines_tail.
    apply processAll_no_exit.
  - apply findMostUsedCookie_streams. discriminate.
Qed.

(* ================================================================== *)
(** * The ranker on any bucket *)

Lemma getOwn_assign_proto {V : Type} (o : JS.props V) k v :
  JS.getOwn (JS.assign o k v) "__proto__" = JS.getOwn o "__proto__".
Proof.
  unfold JS.assign. destruct (String.eqb_spec k "__proto__") as [->|H]; [reflexivity|].
  now apply getOwn_setOwn_other.
Qed.

Lemma increment_keeps_proto o x :
  JS.getOwn (ProcessLogs.increment o x) "__proto__" = JS.getOwn o "__proto__".
Proof.
  unfold ProcessLogs.increment.
  destruct (JS.get o x) as [[n|t k]|i|]; apply getOwn_assign_proto.
Qed.

Lemma increment_proto o :
  JS.getOwn o "__proto__" = None -> ProcessLogs.increment o "__proto__" = o.
Proof.
  intros H. unfold ProcessLogs.increment, JS.get. rewrite H. reflexivity.
Qed.

(** The occurrences of [__proto__] leave the counts as they are. *)
Lemma countCookies_skips_proto l : forall o,
  JS.getOwn o "__proto__" = None ->
  fold_left ProcessLogs.increment l o
  = fold_left ProcessLogs.increment (filter notProto l) o
  /\ JS.getOwn (fold_left ProcessLogs.increment l o) "__proto__" = None.
Proof.
  induction l as [|x l IH]; intros o Ho; [auto|].
  simpl. unfold notProto at 1.
  destruct (String.eqb_spec x "__proto__") as [->|Hne]; simpl.
  - rewrite increment_proto by assumption. now apply IH.
  - apply IH. now rewrite increment_keeps_proto.
Qed.

Lemma mostUsed_skips_proto bucket :
  ProcessLogs.mostUsed bucket = ProcessLogs.mostUsed (filter notProto bucket).
Proof.
  unfold ProcessLogs.mostUsed, ProcessLogs.countCookies.
  now rewrite (proj1 (countCookies_skips_proto bucket [] eq_refl)).
Qed.

Lemma keys_getOwn {V : Type} (o : JS.props V) k :
  In k (map fst o) -> JS.getOwn o k <> None.
Proof.
  unfold JS.getOwn. induction o as [|[k' v] o IH]; simpl; [contradiction|].
  destruct (String.eqb_spec k' k) as [->|Hne]; [discriminate|].
  intros [H|H]; [contradiction | auto].
Qed.

Lemma mostUsed_keys bucket c :
  In c (ProcessLogs.mostUsed bucket) ->
  In c (map fst (ProcessLogs.countCookies bucket)).
Proof.
  unfold ProcessLogs.mostUsed. intros H.
  apply filter_In in H. destruct H as [H _].
  unfold JS.keys in H. exact (proj1 (keyOrder_In _ _) H).
Qed.

Lemma count_notProto c bucket :
  c <> "__proto__" -> count c (filter notProto bucket) = count c bucket.
Proof.
  intros Hc. induction bucket as [|x l IH]; [reflexivity|].
  cbn [filter]. unfold notProto at 1.
  destruct (String.eqb_spec x "__proto__") as [->|Hx]; cbn [negb count].
  - destruct (String.eqb_spec "__proto__" c); [congruence | exact IH].
  - now rewrite IH.
Qed.

(** X11: A cookie [__proto__] is never counted and never returned: the ranker
    answers as if its occurrences were not in the bucket. *)
Theorem proto_cookie_invisible bucket :
  ProcessLogs.mostUsed bucket = ProcessLogs.mostUsed (filter notProto bucket)
  /\ ~ In "__proto__" (ProcessLogs.mostUsed bucket)
  /\ forall c, c <> "__proto__" -> count c (filter notProto bucket) = count c bucket.
Proof.
  split; [apply mostUsed_skips_proto|]. split.
  - intros H. apply mostUsed_keys, keys_getOwn in H. apply H.
    exact (proj2 (countCookies_skips_proto bucket [] eq_refl)).
  - intros c Hc. now apply count_notProto.
Qed.

Lemma inherited_object k :
  JS.inherited k = Some JS.PrototypeObject -> k = "__proto__".
Proof.
  intros H. unfold JS.inherited, JS.objectPrototype in H. cbn [JS.assoc] in H.
  repeat match type of H with
         | (if String.eqb ?a k then _ else _) = _ =>
             destruct (String.eqb_spec a k); [try discriminate H; congruence|]
         end.
  discriminate H.
Qed.

(** X10: Whatever the bucket holds, the ranker names no cookie twice, names
    only plain cookies of the bucket, and none that a plain cookie of the
    bucket outnumbers. *)
Theorem winners_sound bucket :
  NoDup (ProcessLogs.mostUsed bucket)
  /\ forall c, In c (ProcessLogs.mostUsed bucket) ->
       In c bucket /\ plain c
       /\ forall c', plain c' -> count c' bucket <= count c bucket.
Proof.
  destruct (existsb (fun x => match JS.inherited x with
                              | Some (JS.BuiltinFunction _ _) => true
                              | _ => false
                              end) bucket) eqn:Ex.
  - apply existsb_exists in Ex. destruct Ex as [x [Hx Hi]].
    destruct (JS.inherited x) as [[f n|]|] eqn:E; try discriminate.
    rewrite (mostUsed_inherited bucket x f n Hx E).
    split; [constructor | intros c []].
  - assert (Hplain : forall c, In c (filter notProto bucket) -> plain c).
    { intros c Hc. apply filter_In in Hc. destruct Hc as [Hc Hn].
      assert (Hf : match JS.inherited c with
                   | Some (JS.BuiltinFunction _ _) => true
                   | _ => false
                   end = false).
      { destruct (match JS.inherited c with
                  | Some (JS.BuiltinFunction _ _) => true
                  | _ => false
                  end) eqn:Ec; [|reflexivity].
        assert (existsb (fun x => match JS.inherited x with
                                  | Some (JS.BuiltinFunction _ _) => true
                                  | _ => false
                                  end) bucket = true)
          by (apply existsb_exists; eauto).
        congruence. }
      unfold plain. destruct (JS.inherited c) as [[f n|]|] eqn:E;
        [discriminate Hf | | reflexivity].
      apply inherited_object in E. subst c. discriminate Hn. }
    rewrite mostUsed_skips_proto.
    destruct (filter notProto bucket) as [|a l] eqn:Ef.
    + split; [constructor | intros c []].
    + destruct (mostUsed_exact (a :: l)) as [Hnd Hin]; [discriminate | exact Hplain |].
      split; [exact Hnd|]. intros c Hc.
      apply Hin in Hc. destruct Hc as [Hc Hmax].
      assert (Hcb : In c bucket).
      { rewrite <- Ef in Hc. apply filter_In in Hc. tauto. }
      assert (Hcp : plain c) by auto.
      split; [exact Hcb|]. split; [exact Hcp|].
      intros c' Hc'.
      rewrite <- (count_notProto c' bucket) by now apply plain_not_proto.
      rewrite <- (count_notProto c bucket) by now apply plain_not_proto.
      rewrite Ef, Hmax. apply count_le_maxCount.
Qed.

Lemma listMax_ext g g' ks :
  (forall k, g k = g' k) -> listMax g ks = listMax g' ks.
Proof.
  intros H. induction ks as [|k ks IH]; simpl; [reflexivity|].
  now rewrite H, IH.
Qed.

Lemma count_perm c l l' : Permutation l l' -> count c l = count c l'.
Proof.
  induction 1; simpl; try lia.
Qed.

(** X12: The order of a bucket of plain names decides the order of the
    winners and nothing else: a bucket and a permutation of it have the
    same winners. *)
Theorem winners_of_permutation bucket bucket' :
  Permutation bucket bucket' ->
  (forall c, In c bucket -> plain c) ->
  forall c, In c (ProcessLogs.mostUsed bucket) <-> In c (ProcessLogs.mostUsed bucket').
Proof.
  intros Hperm Hp c.
  assert (Hp' : forall x, In x bucket' -> plain x).
  { intros x Hx. apply Hp. eapply Permutation_in; [symmetry|]; eassumption. }
  destruct bucket as [|a l].
  - apply Permutation_nil in Hperm. subst. reflexivity.
  - assert (Hne : bucket' <> []).
    { intros ->. apply Permutation_sym, Permutation_nil in Hperm. discriminate. }
    rewrite (proj2 (mostUsed_exact (a :: l) ltac:(discriminate) Hp) c).
    rewrite (proj2 (mostUsed_exact bucket' Hne Hp') c).
    assert (Hmax : maxCount (a :: l) = maxCount bucket').
    { rewrite !maxCount_listMax.
      rewrite (listMax_same_elements (fun x => count x (a :: l)) (a :: l) bucket').
      - apply listMax_ext. intros x. apply count_perm, Hperm.
      - intros k. split; apply Permutation_in; [|symmetry]; assumption. }
    rewrite Hmax, (count_perm c _ _ Hperm).
    split; intros [H1 H2]; (split; [|exact H2]).
    + eapply Permutation_in; eassumption.
    + eapply Permutation_in; [symmetry|]; eassumption.
Qed.

Lemma proto_cookie_invisible_witness :
  let bucket := ["__proto__"; "A"; "__proto__"; "B"; "A"; "__proto__"] in
  filter notProto bucket = ["A"; "B"; "A"]
  /\ ProcessLogs.mostUsed bucket = ["A"]
  /\ "A" <> "__proto__"
  /\ count "A" (filter notProto bucket) = count "A" bucket.
Proof.
  intros bucket.
  assert (H : "A" <> "__proto__") by discriminate.
  split; [reflexivity|]. split; [reflexivity|]. split; [exact H|].
  exact (proj2 (proj2 (proto_cookie_invisible bucket)) "A" H).
Defined.

Lemma winners_sound_witness :
  let bucket := ["__proto__"; "B"; "__proto__"; "A"; "__proto__"; "B"] in
  ProcessLogs.mostUsed bucket = ["B"]
  /\ In "B" (ProcessLogs.mostUsed bucket)
  /\ plain "A"
  /\ (In "B" bucket /\ plain "B"
      /\ forall c', plain c' -> count c' bucket <= count "B" bucket).
Proof.
  intros bucket.
  assert (H : In "B" (ProcessLogs.mostUsed bucket)) by (left; reflexivity).
  split; [reflexivity|]. split; [exact H|]. split; [reflexivity|].
  exact (proj2 (winners_sound bucket) "B" H).
Defined.

Lemma winners_of_permutation_witness :
  let bucket := ["A"; "A"; "B"; "B"; "C"] in
  let bucket' := ["C"; "B"; "B"; "A"; "A"] in
  Permutation bucket bucket'
  /\ ProcessLogs.mostUsed bucket = ["A"; "B"]
  /\ ProcessLogs.mostUsed bucket' = ["B"; "A"]
  /\ (In "A" (ProcessLogs.mostUsed bucket) <-> In "A" (ProcessLogs.mostUsed bucket')).
Proof.
  intros bucket bucket'.
  assert (Hperm : Permutation bucket bucket') by exact (Permutation_rev bucket).
  split; [exact Hperm|]. split; [reflexivity|]. split; [reflexivity|].
  apply (winners_of_permutation bucket bucket' Hperm).
  intros c H. simpl in H.
  repeat (destruct H as [<-|H]; [reflexivity|]). contradiction.
Defined.

Lemma analyzeLogs_exact_witness :
  let bucket := ["A"; "B"; "B"; "A"; "C"] in
  let m := [("2018-12-08", ["C"]); ("2018-12-09", bucket)] in
  JS.getOwn m "2018-12-09" = Some bucket
  /\ bucket <> []
  /\ ProcessLogs.analyzeLogs m "2018-12-09" = ret (Some ["A"; "B"])
  /\ exists winners,
      ProcessLogs.analyzeLogs m "2018-12-09" = ret (Some winners)
      /\ NoDup winners
      /\ winners <> []
      /\ (forall c, In c winners <-> In c bucket /\ count c bucket = maxCount bucket)
      /\ (forall m', JS.getOwn m' "2018-12-09" = Some bucket ->
                     ProcessLogs.analyzeLogs m' "2018-12-09" = ret (Some winners)).
Proof.
  intros bucket m.
  assert (H1 : JS.getOwn m "2018-12-09" = Some bucket) by reflexivity.
  assert (H2 : bucket <> []) by discriminate.
  split; [exact H1|]. split; [exact H2|]. split; [reflexivity|].
  apply (analyzeLogs_exact m "2018-12-09" bucket H1 H2).
  intros c H. simpl in H.
  repeat (destruct H as [<-|H]; [reflexivity|]). contradiction.
Defined.

Lemma unknown_extension_no_data_witness :
  let readFileSync := fun _ : string => Content "A,2018-12-09T14:19:00+00:00" in
  "cookies.json" <> EmptyString
  /\ "2018-12-09" <> EmptyString
  /\ plain "2018-12-09"
  /\ App.run ["-f"; "cookies.json"; "-d"; "2018-12-09"] readFileSync
     = {| written := [Stdout ProcessLogs.noDataMessage]; exitStatus := 0 |}.
Proof.
  intros readFileSync.
  assert (H1 : "cookies.json" <> EmptyString) by discriminate.
  assert (H2 : "2018-12-09" <> EmptyString) by discriminate.
  assert (H3 : plain "2018-12-09") by reflexivity.
  split; [exact H1|]. split; [exact H2|]. split; [exact H3|].
  refine (unknown_extension_no_data "cookies.json" "2018-12-09"
            "A,2018-12-09T14:19:00+00:00" readFileSync H1 H2 _ eq_refl H3).
  discriminate.
Defined.

(* ================================================================== *)
(** * Fields of a line *)

Lemma split_prefix sep a b :
  ~ contains sep a ->
  JS.split sep (a ++ b)%string
  = match JS.split sep b with
    | h :: t => (a ++ h)%string :: t
    | [] => [a]
    end.
Proof.
  unfold contains. induction a as [|c a IH]; simpl; intros H.
  - destruct (JS.split sep b) eqn:E; [now apply split_nonempty in E | reflexivity].
  - destruct (Ascii.eqb_spec c sep) as [->|_]; [exfalso; auto|].
    rewrite IH by tauto.
    destruct (JS.split sep b); reflexivity.
Qed.

(** X15: Fields after the second are not read: a line with more fields is
    handled as the line made of its first two. *)
Theorem extra_fields_ignored cookie timestamp extra m :
  ~ contains ","%char cookie -> ~ contains ","%char timestamp ->
  ProcessCsvLogs.processLine
    (cookie ++ String ","%char (timestamp ++ String ","%char extra))%string m
  = ProcessCsvLogs.processLine (cookie ++ String ","%char timestamp)%string m.
Proof.
  intros Hc Ht. rewrite !processLine_record. unfold recordOf.
  rewrite !split_app, !(split_absent _ cookie), !(split_absent _ timestamp)
    by assumption.
  reflexivity.
Qed.

Lemma extra_fields_ignored_witness :
  ~ contains ","%char "A"
  /\ ~ contains ","%char "2018-12-09T14:19:00+00:00"
  /\ ProcessCsvLogs.processLine "A,2018-12-09T14:19:00+00:00,x,y" []
     = Return [("2018-12-09", ["A"])]
  /\ ProcessCsvLogs.processLine "A,2018-12-09T14:19:00+00:00,x,y" []
     = ProcessCsvLogs.processLine "A,2018-12-09T14:19:00+00:00" [].
Proof.
  assert (H1 : ~ contains ","%char "A").
  { unfold contains. simpl. intros H.
    repeat (destruct H as [H|H]; [discriminate H|]). exact H. }
  assert (H2 : ~ contains ","%char "2018-12-09T14:19:00+00:00").
  { unfold contains. simpl. intros H.
    repeat (destruct H as [H|H]; [discriminate H|]). exact H. }
  split; [exact H1|]. split; [exact H2|]. split; [reflexivity|].
  exact (extra_fields_ignored "A" "2018-12-09T14:19:00+00:00" "x,y" [] H1 H2).
Defined.

Lemma recordOf_dated cookie date time :
  ~ contains ","%char cookie -> ~ contains ","%char date ->
  ~ contains "T"%char date ->
  recordOf (cookie ++ String ","%char (date ++ String "T"%char time))%string
  = match cookie with
    | EmptyString => None
    | _ => Some (cookie, date)
    end.
Proof.
  intros Hc Hd HT. unfold recordOf.
  rewrite split_app, (split_absent _ cookie) by assumption.
  rewrite (split_prefix _ date) by assumption.
  cbn [JS.split Ascii.eqb Bool.eqb].
  destruct (JS.split ","%char time) as [|h t] eqn:E; [now apply split_nonempty in E|].
  cbn [app].
  assert (Ed : dateOf (date ++ String "T"%char h) = date).
  { unfold dateOf. now rewrite split_app, (split_absent _ date) by assumption. }
  rewrite Ed.
  destruct cookie; [reflexivity|]. destruct date; reflexivity.
Qed.

(** X16: What follows the first [T] of the timestamp is not read: two lines
    with the same cookie and the same date are handled alike, whatever
    their times and offsets. *)
Theorem time_of_day_ignored cookie date time time' m :
  ~ contains ","%char cookie -> ~ contains ","%char date ->
  ~ contains "T"%char date ->
  ProcessCsvLogs.processLine
    (cookie ++ String ","%char (date ++ String "T"%char time))%string m
  = ProcessCsvLogs.processLine
      (cookie ++ String ","%char (date ++ String "T"%char time'))%string m.
Proof.
  intros Hc Hd HT. rewrite !processLine_record.
  now rewrite !recordOf_dated by assumption.
Qed.

Lemma time_of_day_ignored_witness :
  ~ contains ","%char "A"
  /\ ~ contains ","%char "2018-12-09"
  /\ ~ contains "T"%char "2018-12-09"
  /\ ProcessCsvLogs.processLine "A,2018-12-09T14:19:00+00:00" [("2018-12-09", ["B"])]
     = Return [("2018-12-09", ["B"; "A"])]
  /\ ProcessCsvLogs.processLine "A,2018-12-09T14:19:00+00:00" [("2018-12-09", ["B"])]
     = ProcessCsvLogs.processLine "A,2018-12-09T23:59:59-11:00" [("2018-12-09", ["B"])].
Proof.
  assert (H1 : ~ contains ","%char "A").
  { unfold contains. simpl. intros H.
    repeat (destruct H as [H|H]; [discriminate H|]). exact H. }
  assert (H2 : ~ contains ","%char "2018-12-09").
  { unfold contains. simpl. intros H.
    repeat (destruct H as [H|H]; [discriminate H|]). exact H. }
  assert (H3 : ~ contains "T"%char "2018-12-09").
  { unfold contains. simpl. intros H.
    repeat (destruct H as [H|H]; [discriminate H|]). exact H. }
  split; [exact H1|]. split; [exact H2|]. split; [exact H3|]. split; [reflexivity|].
  exact (time_of_day_ignored "A" "2018-12-09" "14:19:00+00:00" "23:59:59-11:00"
           [("2018-12-09", ["B"])] H1 H2 H3).
Defined.

(* ================================================================== *)
(** * The map that is returned *)

(** X14: When [parseFileContent] returns, no date of the log named
    anything on [Object.prototype]; the keys of the map are the dates of the
    records, each once, listed by [Object.keys] with the dates that are array
    indices first, in ascending numeric order, and then the other dates in
    the order first met; no bucket is empty, and the bucket of a date holds
    the cookies the log records for it, in input order. *)
Theorem parse_returns content m :
  ProcessCsvLogs.parseFileContent content = Return m ->
  let records := recordsOf (tl (ProcessCsvLogs.linesOf content)) in
  (forall r, In r records -> plain (snd r))
  /\ JS.keys m = JS.keyOrder (firstOccurrences (map snd records))
  /\ NoDup (JS.keys m)
  /\ (forall date, In date (JS.keys m) <-> In date (map snd records))
  /\ (forall date, JS.getOwn m date = None <-> cookiesOn date records = [])
  /\ (forall date logs,
         JS.getOwn m date = Some logs ->
         logs <> [] /\ logs = cookiesOn date records /\ plain date).
Proof.
  intros H records.
  assert (Hp : forall r, In r records -> plain (snd r)).
  { intros r Hr. unfold plain. destruct (JS.inherited (snd r)) eqn:E; [|reflexivity].
    assert (Hn : ~ plain (snd r)) by (unfold plain; congruence).
    unfold ProcessCsvLogs.parseFileContent in H. rewrite parseLines_tail in H.
    rewrite (processAll_inherited _ [] r) in H; try assumption; [discriminate H|].
    intros k Hk. now contradiction Hk. }
  destruct (parseFileContent_buckets content Hp) as [m' [Hm' [Hget Hkeys]]].
  rewrite H in Hm'. inversion Hm'; subst m'. fold records in Hget, Hkeys.
  assert (Ek : JS.keys m = JS.keyOrder (firstOccurrences (map snd records)))
    by (unfold JS.keys; now rewrite Hkeys).
  split; [exact Hp|]. split; [exact Ek|].
  split.
  { rewrite Ek. eapply Permutation_NoDup; [symmetry; apply keyOrder_perm|].
    apply firstOccurrences_NoDup. }
  split.
  { intros date. rewrite Ek, keyOrder_In. apply firstOccurrences_In. }
  split.
  - intros date. rewrite Hget.
    destruct (cookiesOn date records); split; congruence.
  - intros date logs Hl. rewrite Hget in Hl.
    destruct (cookiesOn date records) as [|c cs] eqn:E; [discriminate|].
    inversion Hl; subst logs. split; [discriminate|]. split; [reflexivity|].
    assert (Hin : In date (map snd records)).
    { destruct (in_dec string_dec date (map snd records)) as [Hin|Hout]; [exact Hin|].
      apply cookiesOn_nil in Hout. congruence. }
    apply in_map_iff in Hin. destruct Hin as [r [<- Hr]]. now apply Hp.
Qed.

Lemma parse_returns_witness :
  let content :=
    unlines ["cookie,timestamp"; "A,2018-12-09T14:19:00+00:00"; "no comma";
             "B,20181209T10:13:00+00:00"; "C,20181208T07:25:00+00:00";
             "D,2018-12-09T06:19:00+00:00"] in
  let m := [("2018-12-09", ["A"; "D"]); ("20181209", ["B"]); ("20181208", ["C"])] in
  ProcessCsvLogs.parseFileContent content = Return m
  /\ JS.keys m = ["20181208"; "20181209"; "2018-12-09"]
  /\ JS.keys m
     = JS.keyOrder (firstOccurrences
                      (map snd (recordsOf (tl (ProcessCsvLogs.linesOf content)))))
  /\ NoDup (JS.keys m)
  /\ (JS.getOwn m "2018-12-07" = None
      <-> cookiesOn "2018-12-07" (recordsOf (tl (ProcessCsvLogs.linesOf content))) = []).
Proof.
  intros content m.
  assert (H : ProcessCsvLogs.parseFileContent content = Return m) by reflexivity.
  split; [exact H|]. split; [reflexivity|].
  destruct (parse_returns content m H) as [_ [Hk [Hnd [_ [Hnone _]]]]].
  split; [exact Hk|]. split; [exact Hnd | exact (Hnone "2018-12-07")].
Defined.

(* ================================================================== *)
(** * White space around the content *)

Lemma trimStart_cons a r1 :
  JS.trimStart (String a r1)
  = if JS.isWhite1 a then JS.trimStart r1
    else match r1 with
         | EmptyString => String a r1
         | String b r2 =>
             if JS.isWhite2 a b then JS.trimStart r2
             else match r2 with
                  | EmptyString => String a r1
                  | String c r3 =>
                      if JS.isWhite3 a b c then JS.trimStart r3 else String a r1
                  end
         end.
Proof. reflexivity. Qed.

Lemma trimEnd_cons a r :
  JS.trimEnd (String a r)
  = if JS.isBlank (String a r) then EmptyString else String a (JS.trimEnd r).
Proof. reflexivity. Qed.

Lemma white1_code w : JS.isWhite1 w = true -> nat_of_ascii w <= 32.
Proof.
  unfold JS.isWhite1. intros H.
  apply orb_true_iff in H. destruct H as [H|H].
  - apply andb_true_iff in H. destruct H as [_ H]. apply Nat.leb_le in H. lia.
  - apply Nat.eqb_eq in H. lia.
Qed.

Lemma white1_not_second a w : JS.isWhite1 w = true -> JS.isWhite2 a w = false.
Proof.
  intros H. apply white1_code in H. unfold JS.isWhite2.
  rewrite (proj2 (Nat.eqb_neq (nat_of_ascii w) 160)) by lia.
  apply andb_false_r.
Qed.

Lemma white1_not_third a b w : JS.isWhite1 w = true -> JS.isWhite3 a b w = false.
Proof.
  intros H. apply white1_code in H. unfold JS.isWhite3.
  rewrite (proj2 (Nat.eqb_neq (nat_of_ascii w) 128)) by lia.
  rewrite (proj2 (Nat.eqb_neq (nat_of_ascii w) 168)) by lia.
  rewrite (proj2 (Nat.eqb_neq (nat_of_ascii w) 169)) by lia.
  rewrite (proj2 (Nat.eqb_neq (nat_of_ascii w) 175)) by lia.
  rewrite (proj2 (Nat.eqb_neq (nat_of_ascii w) 159)) by lia.
  rewrite (proj2 (Nat.eqb_neq (nat_of_ascii w) 191)) by lia.
  rewrite (proj2 (Nat.leb_gt 128 (nat_of_ascii w))) by lia.
  rewrite !andb_false_r. reflexivity.
Qed.

Lemma trimStart_prefix ws s :
  blank1 ws = true -> JS.trimStart (ws ++ s)%string = JS.trimStart s.
Proof.
  induction ws as [|w ws IH]; simpl blank1; intros H; [reflexivity|].
  apply andb_true_iff in H. destruct H as [Hw Hws].
  cbn [append]. rewrite trimStart_cons, Hw. now apply IH.
Qed.

(** One white character more at the end: nothing left if nothing was,
    else the same start. *)
Lemma trimStart_snoc w :
  JS.isWhite1 w = true ->
  forall n s, String.length s <= n ->
    JS.trimStart (s ++ String w EmptyString)%string
    = match JS.trimStart s with
      | EmptyString => EmptyString
      | t => (t ++ String w EmptyString)%string
      end.
Proof.
  intros Hw. induction n as [n IH] using lt_wf_ind. intros s Hn.
  destruct s as [|a r1].
  - cbn [append]. rewrite trimStart_cons, Hw. reflexivity.
  - cbn [append]. rewrite (trimStart_cons a (r1 ++ String w EmptyString)).
    rewrite (trimStart_cons a r1).
    simpl String.length in Hn.
    destruct (JS.isWhite1 a); [apply (IH (String.length r1)); lia|].
    destruct r1 as [|b r2].
    + cbn [append]. now rewrite white1_not_second.
    + cbn [append]. simpl String.length in Hn.
      destruct (JS.isWhite2 a b); [apply (IH (String.length r2)); lia|].
      destruct r2 as [|c r3].
      * cbn [append]. now rewrite white1_not_third.
      * cbn [append]. simpl String.length in Hn.
        destruct (JS.isWhite3 a b c); [apply (IH (String.length r3)); lia|].
        reflexivity.
Qed.

Lemma isBlank_snoc w s :
  JS.isWhite1 w = true -> JS.isBlank (s ++ String w EmptyString) = JS.isBlank s.
Proof.
  intros Hw. unfold JS.isBlank.
  rewrite (trimStart_snoc w Hw (String.length s) s (Nat.le_refl _)).
  destruct (JS.trimStart s); reflexivity.
Qed.

Lemma trimEnd_snoc w s :
  JS.isWhite1 w = true -> JS.trimEnd (s ++ String w EmptyString) = JS.trimEnd s.
Proof.
  intros Hw. induction s as [|a r IH].
  - cbn [append]. rewrite trimEnd_cons. unfold JS.isBlank.
    rewrite trimStart_cons, Hw. reflexivity.
  - change (String a r ++ String w EmptyString)%string
      with (String a (r ++ String w EmptyString)).
    rewrite !trimEnd_cons.
    change (String a (r ++ String w EmptyString))
      with (String a r ++ String w EmptyString)%string.
    rewrite isBlank_snoc by assumption.
    now rewrite IH.
Qed.

Lemma trim_snoc w s :
  JS.isWhite1 w = true -> JS.trim (s ++ String w EmptyString) = JS.trim s.
Proof.
  intros Hw. unfold JS.trim.
  rewrite (trimStart_snoc w Hw (String.length s) s (Nat.le_refl _)).
  destruct (JS.trimStart s) as [|a t]; [reflexivity|].
  now apply trimEnd_snoc.
Qed.

Lemma append_snoc s w ws :
  ((s ++ String w EmptyString) ++ ws)%string = (s ++ String w ws)%string.
Proof. induction s as [|a s IH]; simpl; [reflexivity | now rewrite IH]. Qed.

Lemma trim_suffix ws : forall s,
  blank1 ws = true -> JS.trim (s ++ ws) = JS.trim s.
Proof.
  induction ws as [|w ws IH]; intros s H.
  - assert (E : (s ++ EmptyString)%string = s)
      by (induction s as [|a s IHs]; simpl; [reflexivity | now rewrite IHs]).
    now rewrite E.
  - simpl in H. apply andb_true_iff in H. destruct H as [Hw Hws].
    rewrite <- append_snoc, IH by assumption.
    now apply trim_snoc.
Qed.

(** X17: White space and blank lines before and after the content change
    nothing of what is parsed. *)
Theorem surrounding_space_ignored before content after :
  blank1 before = true -> blank1 after = true ->
  JS.trim (before ++ content ++ after) = JS.trim content
  /\ ProcessCsvLogs.parseFileContent (before ++ content ++ after)
     = ProcessCsvLogs.parseFileContent content.
Proof.
  intros Hb Ha.
  assert (E : JS.trim (before ++ content ++ after) = JS.trim content).
  { unfold JS.trim at 1. rewrite trimStart_prefix by assumption.
    fold (JS.trim (content ++ after)). now apply trim_suffix. }
  split; [exact E|].
  unfold ProcessCsvLogs.parseFileContent, ProcessCsvLogs.linesOf. now rewrite E.
Qed.

Lemma surrounding_space_ignored_witness :
  let nl := String ProcessCsvLogs.newline EmptyString in
  let before := (nl ++ "  ")%string in
  let after := (" " ++ nl ++ nl)%string in
  let content := unlines ["cookie,timestamp"; "A,2018-12-09T14:19:00+00:00"] in
  blank1 before = true
  /\ blank1 after = true
  /\ ProcessCsvLogs.parseFileContent (before ++ content ++ after)
     = Return [("2018-12-09", ["A"])]
  /\ ProcessCsvLogs.parseFileContent (before ++ content ++ after)
     = ProcessCsvLogs.parseFileContent content.
Proof.
  intros nl before after content.
  assert (H1 : blank1 before = true) by reflexivity.
  assert (H2 : blank1 after = true) by reflexivity.
  split; [exact H1|]. split; [exact H2|]. split; [reflexivity|].
  exact (proj2 (surrounding_space_ignored before content after H1 H2)).
Defined.

(* ================================================================== *)
(** * A single winner *)

Lemma NoDup_singleton (l : list string) c :
  NoDup l -> (forall x, In x l <-> x = c) -> l = [c].
Proof.
  intros Hnd H. destruct l as [|a l].
  - exfalso. apply (proj2 (H c) eq_refl).
  - assert (a = c) by (apply H; simpl; auto). subst a.
    destruct l as [|b l]; [reflexivity|].
    assert (b = c) by (apply H; simpl; auto). subst b.
    inversion Hnd as [|? ? Hn _]. exfalso. apply Hn. simpl; auto.
Qed.

(** X13: In a bucket of plain names, a cookie that occurs more often than
    every other one is the only cookie returned. *)
Theorem sole_winner bucket c :
  (forall x, In x bucket -> plain x) ->
  In c bucket ->
  (forall x, In x bucket -> x <> c -> count x bucket < count c bucket) ->
  ProcessLogs.mostUsed bucket = [c].
Proof.
  intros Hp Hc Hmore.
  assert (Hne : bucket <> []) by (intros ->; contradiction).
  destruct (mostUsed_exact bucket Hne Hp) as [Hnd Hin].
  assert (Hmax : maxCount bucket = count c bucket).
  { destruct (listMax_attained (fun x => count x bucket) bucket Hne) as [k [Hk Hg]].
    rewrite maxCount_listMax, <- Hg.
    destruct (string_dec k c) as [->|Hkc]; [reflexivity|].
    pose proof (Hmore k Hk Hkc) as Hlt.
    pose proof (count_le_maxCount bucket c) as Hle.
    rewrite maxCount_listMax, <- Hg in Hle. lia. }
  apply NoDup_singleton; [exact Hnd|].
  intros x. rewrite Hin, Hmax. split.
  - intros [Hx Hcount]. destruct (string_dec x c) as [E|E]; [exact E|].
    pose proof (Hmore x Hx E). lia.
  - intros ->. auto.
Qed.

Lemma sole_winner_witness :
  let bucket := ["9"; "A"; "B"; "A"; "7"] in
  In "A" bucket
  /\ ProcessLogs.mostUsed bucket = ["A"].
Proof.
  intros bucket.
  assert (H : In "A" bucket) by (simpl; auto).
  split; [exact H|].
  apply (sole_winner bucket "A"); [|exact H|].
  - intros x Hx. simpl in Hx.
    repeat (destruct Hx as [<-|Hx]; [reflexivity|]). contradiction.
  - intros x Hx Hne. simpl in Hx.
    repeat (destruct Hx as [<-|Hx];
            [first [contradiction Hne; reflexivity | vm_compute; lia]|]).
    contradiction.
Defined.
